(** * An on-demand image resizer: style-token parser and request pipeline

    Shallow embedding of [index.js]: the [ResizeStyle] class (token parser,
    cache-key generation, resize geometry) and the [handler] waterfall
    (cache lookup, origin fetch, validation, resize or convert, cache
    store, response).

    Modelling conventions.
    - A JavaScript string is a [string]; the program only ever inspects
      the ASCII characters ['.'], ['/'], ['x'], digits and letters, and
      [toLowerCase] is only applied to ASCII text (see
      [index_name_ascii_fields]), so every other code unit behaves as an
      opaque character.
    - A JavaScript value is a [jsval]; an unset property or an array read
      past the end is [Undefined].
    - A regular expression literal is a [regex] syntax tree run by a
      derivative matcher; all four literals in the source are anchored
      with [^...$], so [test] is whole-string matching.
    - The S3 client, ImageMagick and the scratch directory are
      collaborators: their answers are the fields of a [Services] record,
      they may depend on the calls made so far, and every call is
      recorded in a trace. *)

From Stdlib Require Import ZArith String Ascii List Bool Lia.
From Stdlib.Strings Require Import Byte.
From stdpp Require Import base option gmap strings pretty.

Open Scope string_scope.
Open Scope Z_scope.

(** ** JavaScript values and string primitives *)

Module JS.

Inductive jsval :=
| Undefined
| Boolean (b : bool)
| Num (n : Z)
| Str (s : string).

(** ToBoolean *)
Definition truthy (v : jsval) : bool :=
  match v with
  | Undefined => false
  | Boolean b => b
  | Num n => negb (n =? 0)
  | Str s => negb (String.eqb s "")
  end.

(** [a || b] *)
Definition or (a b : jsval) : jsval := if truthy a then a else b.

(** ToString *)
Definition ToString (v : jsval) : string :=
  match v with
  | Undefined => "undefined"
  | Boolean true => "true"
  | Boolean false => "false"
  | Num n => pretty n
  | Str s => s
  end.

Definition is_digit (c : ascii) : bool :=
  (Ascii.leb "0" c && Ascii.leb c "9")%char.

Definition digit_val (c : ascii) : Z := Z.of_N (N_of_ascii c) - 48.

Fixpoint all_digits (s : string) : bool :=
  match s with
  | EmptyString => true
  | String c s' => is_digit c && all_digits s'
  end.

Fixpoint decimal_acc (acc : Z) (s : string) : Z :=
  match s with
  | EmptyString => acc
  | String c s' => decimal_acc (10 * acc + digit_val c) s'
  end.

(** StringToNumber, on the strings this program converts: the empty
    string is 0 and a run of decimal digits is its decimal value (leading
    zeros allowed).  Every other string is reported as NaN ([None]); the
    regular expression on the size segment only lets digit strings
    through (see [canvas_fields_digits]).  The value is kept exact: the
    source compares it with integers below 2^53 only, and rounding to a
    double is monotone, so the comparisons agree. *)
Definition StringToNumber (s : string) : option Z :=
  if all_digits s then Some (decimal_acc 0 s) else None.

(** ToNumber; [None] is NaN. *)
Definition ToNumber (v : jsval) : option Z :=
  match v with
  | Undefined => None
  | Boolean b => Some (if b then 1 else 0)
  | Num n => Some n
  | Str s => StringToNumber s
  end.

(** [a < b]: two strings compare by code units, anything else by
    number, and a comparison with NaN is false. *)
Definition lt (a b : jsval) : bool :=
  match a, b with
  | Str s, Str t => String.ltb s t
  | _, _ =>
      match ToNumber a, ToNumber b with
      | Some x, Some y => x <? y
      | _, _ => false
      end
  end.

(** [a > b] *)
Definition gt (a b : jsval) : bool := lt b a.

(** [a === b] *)
Definition strict_eq (a b : jsval) : bool :=
  match a, b with
  | Undefined, Undefined => true
  | Boolean x, Boolean y => Bool.eqb x y
  | Num x, Num y => x =? y
  | Str x, Str y => String.eqb x y
  | _, _ => false
  end.

(** [s.split(sep)] for a one-character separator: never empty. *)
Fixpoint split (sep : ascii) (s : string) : list string :=
  match s with
  | EmptyString => [EmptyString]
  | String c s' =>
      if Ascii.eqb c sep then EmptyString :: split sep s'
      else match split sep s' with
           | h :: t => String c h :: t
           | [] => [String c EmptyString]
           end
  end.

(** [arr[i]] *)
Definition index (arr : list string) (i : nat) : jsval :=
  match nth_error arr i with
  | Some s => Str s
  | None => Undefined
  end.

Definition is_upper (c : ascii) : bool :=
  (Ascii.leb "A" c && Ascii.leb c "Z")%char.

Definition is_lower (c : ascii) : bool :=
  (Ascii.leb "a" c && Ascii.leb c "z")%char.

Definition lower_char (c : ascii) : ascii :=
  if is_upper c then ascii_of_N (N_of_ascii c + 32) else c.

Definition upper_char (c : ascii) : ascii :=
  if is_lower c then ascii_of_N (N_of_ascii c - 32) else c.

(** [s.toLowerCase()] *)
Fixpoint toLowerCase (s : string) : string :=
  match s with
  | EmptyString => EmptyString
  | String c s' => String (lower_char c) (toLowerCase s')
  end.

End JS.

(** ** Regular expressions *)

Module RegExp.

Inductive regex :=
| Void
| Eps
| Lit (c : ascii)
| Range (lo hi : ascii)
| Cat (r1 r2 : regex)
| Alt (r1 r2 : regex)
| Star (r : regex).

(** [r+] and [r{n}] *)
Definition Plus (r : regex) : regex := Cat r (Star r).

Fixpoint Rep (n : nat) (r : regex) : regex :=
  match n with
  | O => Eps
  | S n' => Cat r (Rep n' r)
  end.

Fixpoint Word (s : string) : regex :=
  match s with
  | EmptyString => Eps
  | String c s' => Cat (Lit c) (Word s')
  end.

(** A literal [/^source$/] or [/^source$/i]. *)
Record t := { source : regex; ignoreCase : bool }.

(** Canonicalize of the [i] flag: upper-casing, which never maps a
    character outside ASCII onto an ASCII one. *)
Definition canonicalize (icase : bool) (c : ascii) : ascii :=
  if icase then JS.upper_char c else c.

Definition in_range (lo hi c : ascii) : bool :=
  (Ascii.leb lo c && Ascii.leb c hi)%char.

Definition lit_match (icase : bool) (p c : ascii) : bool :=
  Ascii.eqb (canonicalize icase p) (canonicalize icase c).

Definition range_match (icase : bool) (lo hi c : ascii) : bool :=
  in_range lo hi c
  || (icase && (in_range lo hi (JS.upper_char c)
                || in_range lo hi (JS.lower_char c))).

Fixpoint nullable (r : regex) : bool :=
  match r with
  | Void => false
  | Eps => true
  | Lit _ => false
  | Range _ _ => false
  | Cat r1 r2 => nullable r1 && nullable r2
  | Alt r1 r2 => nullable r1 || nullable r2
  | Star _ => true
  end.

Fixpoint deriv (icase : bool) (c : ascii) (r : regex) : regex :=
  match r with
  | Void => Void
  | Eps => Void
  | Lit p => if lit_match icase p c then Eps else Void
  | Range lo hi => if range_match icase lo hi c then Eps else Void
  | Cat r1 r2 =>
      if nullable r1
      then Alt (Cat (deriv icase c r1) r2) (deriv icase c r2)
      else Cat (deriv icase c r1) r2
  | Alt r1 r2 => Alt (deriv icase c r1) (deriv icase c r2)
  | Star r1 => Cat (deriv icase c r1) (Star r1)
  end.

Fixpoint matches (icase : bool) (r : regex) (s : string) : bool :=
  match s with
  | EmptyString => nullable r
  | String c s' => matches icase (deriv icase c r) s'
  end.

(** [re.test(v)]: the argument is converted with ToString first. *)
Definition test (re : t) (v : JS.jsval) : bool :=
  matches (ignoreCase re) (source re) (JS.ToString v).

End RegExp.

(** ** The [ResizeStyle] class *)

Module ResizeStyle.
Import JS RegExp.

(** [static get separator()] *)
Definition separator : ascii := "."%char.

(** [static get maxDimension()] *)
Definition maxDimension : jsval := Num 2048.

Definition digit : regex := Range "0" "9".
Definition hex : regex := Alt (Range "0" "9") (Range "a" "f").

(** [/^fi(t|ll)$/i] *)
Definition re_cover : RegExp.t :=
  {| source := Cat (Lit "f") (Cat (Lit "i") (Alt (Lit "t") (Cat (Lit "l") (Lit "l"))));
     ignoreCase := true |}.

(** [/^([0-9]+x[0-9]*|[0-9]*x[0-9]+)$/] *)
Definition re_canvas : RegExp.t :=
  {| source := Alt (Cat (Plus digit) (Cat (Lit "x") (Star digit)))
                   (Cat (Star digit) (Cat (Lit "x") (Plus digit)));
     ignoreCase := false |}.

(** [/^(jpg|png|gif|)$/i] *)
Definition re_format : RegExp.t :=
  {| source := Alt (Word "jpg") (Alt (Word "png") (Alt (Word "gif") Eps));
     ignoreCase := true |}.

(** [/^([0-9a-f]{3}|[0-9a-f]{6})$/] *)
Definition re_color : RegExp.t :=
  {| source := Alt (Rep 3 hex) (Rep 6 hex); ignoreCase := false |}.

(** The instance: [enable] is always assigned, every other property is
    [Undefined] until the constructor reaches its assignment. *)
Record t := {
  enable : bool;
  cover : jsval;
  canvas_w_string : jsval;
  canvas_h_string : jsval;
  canvas_w : jsval;
  canvas_h : jsval;
  format : jsval;
  background : jsval
}.

Definition fresh : t :=
  {| enable := true; cover := Undefined;
     canvas_w_string := Undefined; canvas_h_string := Undefined;
     canvas_w := Undefined; canvas_h := Undefined;
     format := Undefined; background := Undefined |}.

Definition set_enable (b : bool) (this : t) : t :=
  {| enable := b; cover := cover this;
     canvas_w_string := canvas_w_string this;
     canvas_h_string := canvas_h_string this;
     canvas_w := canvas_w this; canvas_h := canvas_h this;
     format := format this; background := background this |}.

Definition set_cover (v : jsval) (this : t) : t :=
  {| enable := enable this; cover := v;
     canvas_w_string := canvas_w_string this;
     canvas_h_string := canvas_h_string this;
     canvas_w := canvas_w this; canvas_h := canvas_h this;
     format := format this; background := background this |}.

Definition set_canvas (ws hs w h : jsval) (this : t) : t :=
  {| enable := enable this; cover := cover this;
     canvas_w_string := ws; canvas_h_string := hs;
     canvas_w := w; canvas_h := h;
     format := format this; background := background this |}.

Definition set_format (v : jsval) (this : t) : t :=
  {| enable := enable this; cover := cover this;
     canvas_w_string := canvas_w_string this;
     canvas_h_string := canvas_h_string this;
     canvas_w := canvas_w this; canvas_h := canvas_h this;
     format := v; background := background this |}.

Definition set_background (v : jsval) (this : t) : t :=
  {| enable := enable this; cover := cover this;
     canvas_w_string := canvas_w_string this;
     canvas_h_string := canvas_h_string this;
     canvas_w := canvas_w this; canvas_h := canvas_h this;
     format := format this; background := v |}.

(** [constructor(params)].  In the branch after the size test the
    segment [arr[1]] is a string, because [test] has turned a missing
    segment into the text "undefined" and rejected it
    ([canvas_rejects_undefined]); the [split] of a non-string there,
    which would throw, is not reached. *)
Definition new (params : jsval) : t :=
  let this := fresh in
  match params with
  | Str p =>
      let arr := split separator p in
      if negb (test re_cover (index arr 0)) then set_enable false this
      else
        let this := set_cover (index arr 0) this in
        if negb (test re_canvas (index arr 1)) then set_enable false this
        else
          let canvas :=
            match index arr 1 with
            | Str seg => split "x" seg
            | _ => []
            end in
          let ws := or (index canvas 0) (Str "") in
          let hs := or (index canvas 1) (Str "") in
          let this := set_canvas ws hs (or ws (Num 0)) (or hs (Num 0)) this in
          if gt (canvas_w this) maxDimension || gt (canvas_h this) maxDimension
          then set_enable false this
          else
            let this :=
              if test re_format (index arr 2)
              then set_format (index arr 2) this
              else set_format (Str "jpg") this in
            if test re_color (index arr 3)
            then set_background (index arr 3) this
            else set_background (Str "none") this
  | _ => set_enable false this
  end.

Definition isValid (this : t) : bool := enable this.

Definition isKeepAspect (this : t) : bool :=
  negb (truthy (canvas_w this)) || negb (truthy (canvas_h this)).

Definition getIndexName (this : t) : string :=
  let name :=
    if isValid this then
      ToString (cover this) +:+ String separator "" +:+
      ToString (canvas_w_string this) +:+ "x" +:+
      ToString (canvas_h_string this) +:+ String separator "" +:+
      ToString (format this) +:+ String separator "" +:+
      ToString (background this)
    else "full" in
  toLowerCase name.

Definition getWidth (this : t) : jsval := canvas_w this.
Definition getHeight (this : t) : jsval := canvas_h this.
Definition getFormat (this : t) : jsval := format this.

Definition getContentType (this : t) : string :=
  if strict_eq (Str "jpg") (format this) then "image/jpeg"
  else "image/" +:+ ToString (format this).

Definition getColor (this : t) : string :=
  if strict_eq (Str "none") (background this) then ToString (background this)
  else "#" +:+ ToString (background this).

(** [getResizeData(original_w, original_h)]: the pair
    [[resized_w, resized_h]]. *)
Definition getResizeData (this : t) (original_w original_h : jsval)
  : jsval * jsval :=
  if lt original_w original_h then
    if strict_eq (cover this) (Str "fit") then
      let resized_h :=
        if lt original_h (getHeight this) then original_h
        else getHeight this in
      (Num 0, resized_h)
    else
      let resized_w :=
        if lt original_w (getWidth this) then original_w
        else getWidth this in
      (resized_w, Num 0)
  else
    if strict_eq (cover this) (Str "fit") then
      let resized_w :=
        if lt original_w (getWidth this) then original_w
        else getWidth this in
      (resized_w, Num 0)
    else
      let resized_h :=
        if lt original_h (getHeight this) then original_h
        else getHeight this in
      (Num 0, resized_h).

End ResizeStyle.


(** ** [Buffer.toString('base64')] *)

Module Buffer.

Definition alphabet : string :=
  "ABCDEFGHIJKLMNOPQRSTUVWXYZabcdefghijklmnopqrstuvwxyz0123456789+/".

Definition sextet (n : N) : ascii :=
  match String.get (N.to_nat n) alphabet with
  | Some c => c
  | None => "="%char
  end.

Fixpoint base64 (data : list byte) : string :=
  match data with
  | [] => ""
  | [a] =>
      let x := Byte.to_N a in
      String (sextet (x / 4)) (String (sextet (x mod 4 * 16)) "==")
  | [a; b] =>
      let x := Byte.to_N a in
      let y := Byte.to_N b in
      String (sextet (x / 4))
        (String (sextet (x mod 4 * 16 + y / 16))
           (String (sextet (y mod 16 * 4)) "="))
  | a :: b :: c :: rest =>
      let x := Byte.to_N a in
      let y := Byte.to_N b in
      let z := Byte.to_N c in
      String (sextet (x / 4))
        (String (sextet (x mod 4 * 16 + y / 16))
           (String (sextet (y mod 16 * 4 + z / 64))
              (String (sextet (z mod 64)) (base64 rest))))
  end%N.

End Buffer.

(** ** The Lambda handler *)

Module Lambda.
Import JS.

(** [process.env], with every variable the handler reads set. *)
Record Env := {
  TEMP_DIR : string;
  BUCKET_ORIGINAL : string;
  BUCKET_CACHE : string;
  KEY_ORIGINAL : string;
  KEY_CACHE : string
}.

(** What [s3.getObject] hands back: [Body], [ContentType] and
    [Metadata.deleted]. *)
Record S3Object := {
  Body : list byte;
  ContentType : string;
  Metadata_deleted : jsval
}.

(** An error value passed to a callback by a collaborator. *)
Inductive Error := MkError (code : string).

Record Payload := {
  statusCode : Z;
  headers : gmap string string;
  isBase64Encoded : bool;
  body : string
}.

(** [new Payload()] followed by the three assignments every carrier of
    a payload performs in its constructor. *)
Definition new_Payload : Payload :=
  {| statusCode := 200; headers := ∅; isBase64Encoded := true; body := "" |}.

Definition fill_Payload (data : list byte) (contentType : string) : Payload :=
  let payload := new_Payload in
  {| statusCode := 200;
     headers := {[ "Content-Type" := contentType ]};
     isBase64Encoded := isBase64Encoded payload;
     body := Buffer.base64 data |}.

Inductive Exception :=
| ExistCacheException (payload : Payload)
| NotFoundException (message : string)
| CouldNotResizeException (payload : Payload)
| UploadFailedException (message : string)
| ResizeFailedException (message : string)
| ConvertFailedException (message : string)
| DeletedException (message : string).

Definition new_ExistCacheException (data : list byte) (contentType : string) :=
  ExistCacheException (fill_Payload data contentType).
Definition new_NotFoundException := NotFoundException "Not Found Exception".
Definition new_CouldNotResizeException (data : list byte) (contentType : string) :=
  CouldNotResizeException (fill_Payload data contentType).
Definition new_UploadFailedException := UploadFailedException "Upload Failed Exception".
Definition new_ResizeFailedException := ResizeFailedException "Resize Failed Exception".
Definition new_ConvertFailedException := ConvertFailedException "Convert Failed Exception".
Definition new_DeletedException := DeletedException "Deleted Exception".

Record Magicked := { payload : Payload }.
Definition new_Magicked (data : list byte) (contentType : string) : Magicked :=
  {| payload := fill_Payload data contentType |}.

(** Every call that leaves the process, in the order it is made. *)
Inductive Event :=
| S3GetObject (Bucket Key : string)
| S3PutObject (Bucket Key : string) (data : list byte) (contentType : string)
| ImIdentify (data : list byte)
| ImResize (srcData : list byte) (width height format : jsval)
| ImConvert (args : list string)
| FsWriteFile (path : string) (data : list byte)
| FsReadFile (path : string)
| ConsoleLog (line : jsval)
| LambdaCallback (response : Payload).

(** The objects stored in S3, by bucket and key, and the calls made so
    far (oldest first). *)
Record World := {
  s3 : gmap (string * string) S3Object;
  trace : list Event
}.

Definition emit (e : Event) (w : World) : World :=
  {| s3 := s3 w; trace := trace w ++ [e] |}.

Definition store (Bucket Key : string) (o : S3Object) (w : World) : World :=
  {| s3 := <[(Bucket, Key) := o]> (s3 w); trace := trace w |}.

(** The collaborators' behaviour.  Each answer may depend on the calls
    made before it.  A get fails when the service reports an error of any
    kind or the key is absent; a put either fails or stores the object. *)
Record Services := {
  s3_get_error : list Event -> string -> string -> option Error;
  s3_put_error : list Event -> string -> string -> option Error;
  im_identify : list Event -> list byte -> Error + (jsval * jsval);
  im_resize : list Event -> list byte -> jsval -> jsval -> jsval -> Error + list byte;
  im_convert : list Event -> list string -> option Error;
  fs_writeFile : list Event -> string -> list byte -> option Error;
  fs_readFile : list Event -> string -> Error + list byte
}.

(** A callback-style operation: it changes the world and calls back
    with either an error of type [E] or a result. *)
Definition Async (E A : Type) : Type := World -> World * (E + A).

Definition ret {E A} (a : A) : Async E A := fun w => (w, inr a).
Definition fail {E A} (e : E) : Async E A := fun w => (w, inl e).

Definition bind {E A B} (m : Async E A) (k : A -> Async E B) : Async E B :=
  fun w =>
    match m w with
    | (w', inl e) => (w', inl e)
    | (w', inr a) => k a w'
    end.

(** The caller's callback: [handle] inspects the error argument. *)
Definition handle {E F A B} (m : Async E A)
  (on_err : E -> Async F B) (on_ok : A -> Async F B) : Async F B :=
  fun w =>
    match m w with
    | (w', inl e) => on_err e w'
    | (w', inr a) => on_ok a w'
    end.


Notation "'let*' p ':=' m 'in' k" := (bind m (fun p => k))
  (at level 10, p pattern, k at level 200).

Section Handler.

Variable svc : Services.
Variable env : Env.

(** *** Collaborator calls *)

(** [s3.getObject({Bucket, Key}, cb)] *)
Definition s3_getObject (Bucket Key : string) : Async Error S3Object :=
  fun w =>
    let w' := emit (S3GetObject Bucket Key) w in
    match s3_get_error svc (trace w) Bucket Key with
    | Some e => (w', inl e)
    | None =>
        match s3 w !! (Bucket, Key) with
        | Some o => (w', inr o)
        | None => (w', inl (MkError "NoSuchKey"))
        end
    end.

(** [s3.putObject({Bucket, Key, Body, ContentType}, cb)] *)
Definition s3_putObject (Bucket Key : string) (data : list byte)
  (contentType : string) : Async Error unit :=
  fun w =>
    let w' := emit (S3PutObject Bucket Key data contentType) w in
    match s3_put_error svc (trace w) Bucket Key with
    | Some e => (w', inl e)
    | None =>
        (store Bucket Key
           {| Body := data; ContentType := contentType;
              Metadata_deleted := Undefined |} w', inr tt)
    end.

Definition im_identify_call (data : list byte) : Async Error (jsval * jsval) :=
  fun w => (emit (ImIdentify data) w, im_identify svc (trace w) data).

Definition im_resize_call (srcData : list byte) (width height format : jsval)
  : Async Error (list byte) :=
  fun w => (emit (ImResize srcData width height format) w,
            im_resize svc (trace w) srcData width height format).

Definition im_convert_call (args : list string) : Async Error unit :=
  fun w => (emit (ImConvert args) w,
            match im_convert svc (trace w) args with
            | Some e => inl e
            | None => inr tt
            end).

Definition fs_writeFile_call (path : string) (data : list byte)
  : Async Error unit :=
  fun w => (emit (FsWriteFile path data) w,
            match fs_writeFile svc (trace w) path data with
            | Some e => inl e
            | None => inr tt
            end).

Definition fs_readFile_call (path : string) : Async Error (list byte) :=
  fun w => (emit (FsReadFile path) w, fs_readFile svc (trace w) path).

(** *** The request *)

Section Request.

(** [event.pathParameters.filename] *)
Variable pathParameters_filename : string.

Definition request : list string := split "/" pathParameters_filename.
Definition filename : string := ToString (index request 0).
Definition params : jsval := or (index request 1) (Str "").

Definition resizeStyle : ResizeStyle.t := ResizeStyle.new params.

Definition basename : string := filename.
Definition cachePath : string :=
  filename +:+ "_" +:+ ResizeStyle.getIndexName resizeStyle.
Definition originalPath : string := filename.

Definition download (Bucket Key : string)
  : Async Error (list byte * string * S3Object) :=
  handle (s3_getObject Bucket Key)
    (fun err => fail err)
    (fun response => ret (Body response, ContentType response, response)).

Definition upload (data : list byte) (contentType : string)
  : Async Error unit :=
  s3_putObject (BUCKET_CACHE env) (KEY_CACHE env +:+ cachePath)
    data contentType.

(** Resize with the aspect ratio kept. *)
Definition resize (data : list byte) (contentType : string)
  : Async Error (list byte * string) :=
  handle
    (im_resize_call data (ResizeStyle.getWidth resizeStyle)
       (ResizeStyle.getHeight resizeStyle)
       (ResizeStyle.getFormat resizeStyle))
    (fun err => fail err)
    (fun stdout => ret (stdout, ResizeStyle.getContentType resizeStyle)).

(** Resize into a rectangle of the requested size. *)
Definition convert (data : list byte) (contentType : string)
  : Async Error (list byte * string) :=
  let tmpResized :=
    TEMP_DIR env +:+ basename +:+ "_" +:+
    ResizeStyle.getIndexName resizeStyle in
  let tmpCanvas :=
    tmpResized +:+ "_canvas." +:+
    ToString (ResizeStyle.getFormat resizeStyle) in
  let tmpComposite :=
    tmpResized +:+ "_composite." +:+
    ToString (ResizeStyle.getFormat resizeStyle) in
  let* (original_w, original_h) := im_identify_call data in
  let '(resized_w, resized_h) :=
    ResizeStyle.getResizeData resizeStyle original_w original_h in
  let* output := im_resize_call data resized_w resized_h
                (ResizeStyle.getFormat resizeStyle) in
  let* _ := fs_writeFile_call tmpResized output in
  let* _ := im_convert_call
           ["-size";
            ToString (ResizeStyle.getWidth resizeStyle) +:+ "x" +:+
            ToString (ResizeStyle.getHeight resizeStyle);
            "xc:" +:+ ResizeStyle.getColor resizeStyle;
            tmpCanvas] in
  let* _ := im_convert_call
           [tmpCanvas; tmpResized; "-gravity"; "center"; "-composite";
            tmpComposite] in
  let* data' := fs_readFile_call tmpComposite in
  ret (data', ResizeStyle.getContentType resizeStyle).

(** *** The waterfall tasks *)

(** Look the cache up. *)
Definition CacheLookup : Async Exception unit :=
  handle (download (BUCKET_CACHE env) (KEY_CACHE env +:+ cachePath))
    (fun _ => ret tt)
    (fun '(data, contentType, _) =>
       fail (new_ExistCacheException data contentType)).

(** Look the original up. *)
Definition OriginFetch : Async Exception (list byte * string) :=
  handle (download (BUCKET_ORIGINAL env) (KEY_ORIGINAL env +:+ originalPath))
    (fun _ => fail new_NotFoundException)
    (fun '(data, contentType, response) =>
       if truthy (Metadata_deleted response)
       then fail new_DeletedException
       else ret (data, contentType)).

(** Check the requested style. *)
Definition ValidateResize '((data, contentType) : list byte * string)
  : Async Exception (list byte * string) :=
  if negb (ResizeStyle.isValid resizeStyle) then
    handle (upload data contentType)
      (fun _ => fail new_UploadFailedException)
      (fun _ => fail (new_CouldNotResizeException data contentType))
  else ret (data, contentType).

(** Resize. *)
Definition Resize '((data, contentType) : list byte * string)
  : Async Exception (list byte * string) :=
  if ResizeStyle.isKeepAspect resizeStyle then
    handle (resize data contentType)
      (fun _ => fail new_ResizeFailedException)
      (fun r => ret r)
  else
    handle (convert data contentType)
      (fun _ => fail new_ConvertFailedException)
      (fun r => ret r).

(** Store the result in the cache. *)
Definition CacheStore '((data, contentType) : list byte * string)
  : Async Exception Magicked :=
  handle (upload data contentType)
    (fun _ => fail new_UploadFailedException)
    (fun _ => ret (new_Magicked data contentType)).

(** [async.waterfall([...], cb)] up to its final callback: the first
    task that calls back with an error ends the chain. *)
Definition waterfall : Async Exception Magicked :=
  let* _ := CacheLookup in
  let* original := OriginFetch in
  let* checked := ValidateResize original in
  let* resized := Resize checked in
  CacheStore resized.

Definition lambda_callback (response : Payload) (w : World)
  : World * option Payload :=
  (emit (LambdaCallback response) w, Some response).

(** The final callback [function (err, magicked)]: what it logs and
    whether it answers the request. *)
Definition respond (r : Exception + Magicked) (w : World)
  : World * option Payload :=
  match r with
  | inl err =>
      let w := emit (ConsoleLog (Str "catch exception")) w in
      match err with
      | NotFoundException message
      | UploadFailedException message
      | ResizeFailedException message
      | ConvertFailedException message =>
          (emit (ConsoleLog (Str message)) w, None)
      | ExistCacheException payload
      | CouldNotResizeException payload =>
          lambda_callback payload
            (emit (ConsoleLog (Num (statusCode payload))) w)
      | DeletedException _ => (w, None)
      end
  | inr magicked =>
      lambda_callback (payload magicked)
        (emit (ConsoleLog (Num (statusCode (payload magicked)))) w)
  end.

(** One run of [exports.handler]. *)
Record Outcome := {
  final : World;
  result : Exception + Magicked;
  response : option Payload
}.

Definition run (tasks : Async Exception Magicked) (w : World) : Outcome :=
  let '(w1, r) := tasks w in
  let '(w2, resp) := respond r w1 in
  {| final := w2; result := r; response := resp |}.

Definition handler (w : World) : Outcome := run waterfall w.

End Request.
End Handler.

End Lambda.

(** * Vocabulary of the statements *)

Section Vocabulary.
Import JS RegExp ResizeStyle Lambda.
Local Open Scope list_scope.

(** No character of [s] is [sep]. *)
Fixpoint free_of (sep : ascii) (s : string) : bool :=
  match s with
  | EmptyString => true
  | String c s' => negb (Ascii.eqb c sep) && free_of sep s'
  end.

(** The strings an expression denotes. *)
Inductive lang (icase : bool) : regex -> string -> Prop :=
| lang_eps : lang icase Eps ""
| lang_lit p c : lit_match icase p c = true -> lang icase (Lit p) (String c "")
| lang_range lo hi c :
    range_match icase lo hi c = true -> lang icase (Range lo hi) (String c "")
| lang_cat r1 r2 s1 s2 :
    lang icase r1 s1 -> lang icase r2 s2 -> lang icase (Cat r1 r2) (s1 +:+ s2)
| lang_alt_l r1 r2 s : lang icase r1 s -> lang icase (Alt r1 r2) s
| lang_alt_r r1 r2 s : lang icase r2 s -> lang icase (Alt r1 r2) s
| lang_star_nil r : lang icase (Star r) ""
| lang_star_more r s1 s2 :
    lang icase r s1 -> lang icase (Star r) s2 -> lang icase (Star r) (s1 +:+ s2).

(** Characters below 128. *)
Definition is_ascii (c : ascii) : bool := (N_of_ascii c <? 128)%N.

Fixpoint all_ascii (s : string) : bool :=
  match s with
  | EmptyString => true
  | String c s' => is_ascii c && all_ascii s'
  end.

(** Lower-case hexadecimal digits. *)
Definition is_hex (c : ascii) : bool :=
  in_range "0" "9" c || in_range "a" "f" c.

Fixpoint all_hex (s : string) : bool :=
  match s with
  | EmptyString => true
  | String c s' => is_hex c && all_hex s'
  end.

(** The format and background the constructor settles on. *)
Definition chosen_format (v : jsval) : jsval :=
  if test re_format v then v else Str "jpg".

Definition chosen_background (v : jsval) : jsval :=
  if test re_color v then v else Str "none".

(** The instance built from a token that passes every check. *)
Definition parsed (c w h : string) (f b : jsval) : ResizeStyle.t :=
  {| enable := true; cover := Str c;
     canvas_w_string := Str w; canvas_h_string := Str h;
     canvas_w := or (Str w) (Num 0); canvas_h := or (Str h) (Num 0);
     format := f; background := b |}.

(** Whether a segment names one of the three formats, in any casing. *)
Definition names_format (v : jsval) : bool :=
  match v with
  | Str s =>
      String.eqb (toLowerCase s) "jpg" || String.eqb (toLowerCase s) "png"
      || String.eqb (toLowerCase s) "gif"
  | _ => false
  end.

(** Whether a component is the number zero, as a number or as text. *)
Definition zero_valued (v : jsval) : bool :=
  match ToNumber v with
  | Some n => n =? 0
  | None => false
  end.

(** [m] leaves the calls already made in place and adds its own. *)
Definition appends {E A} (m : Async E A) : Prop :=
  forall w, exists evs, trace (fst (m w)) = trace w ++ evs.

(** The object a successful cache put stores. *)
Definition cached (data : list byte) (contentType : string) : S3Object :=
  {| Body := data; ContentType := contentType; Metadata_deleted := Undefined |}.

Section RequestVocabulary.

Variable svc : Services.
Variable env : Env.

(** [event.pathParameters.filename] *)
Variable path : string.

(** The key of the cache object: the configured prefix, then
    [filename + '_' + getIndexName()]. *)
Definition cacheKey : string := KEY_CACHE env +:+ cachePath path.
Definition originKey : string := KEY_ORIGINAL env +:+ originalPath path.

Definition cacheGetEvent : Event := S3GetObject (BUCKET_CACHE env) cacheKey.
Definition originGetEvent : Event :=
  S3GetObject (BUCKET_ORIGINAL env) originKey.

(** What the cache-bucket get of the request calls back with, and what
    the origin get made after it calls back with. *)
Definition cache_get (w : World) : Error + S3Object :=
  snd (s3_getObject svc (BUCKET_CACHE env) cacheKey w).

Definition origin_get (w : World) : Error + S3Object :=
  snd (s3_getObject svc (BUCKET_ORIGINAL env) originKey
         (emit cacheGetEvent w)).

(** Whether the cache put made after the two gets succeeds. *)
Definition cache_put_ok (w : World) : bool :=
  match s3_put_error svc (trace (emit originGetEvent (emit cacheGetEvent w)))
          (BUCKET_CACHE env) cacheKey with
  | Some _ => false
  | None => true
  end.

(** The tasks of the waterfall from the original lookup on. *)
Definition waterfall_from_OriginFetch : Async Exception Magicked :=
  let* original := OriginFetch svc env path in
  let* checked := ValidateResize svc env path original in
  let* resized := Resize svc env path checked in
  CacheStore svc env path resized.

End RequestVocabulary.

End Vocabulary.

(** * Concrete requests *)

Module Scenario.
Import JS Lambda.
Local Open Scope list_scope.

(** Collaborators that never report an error of their own. *)
Definition reliable : Services :=
  {| s3_get_error := fun _ _ _ => None;
     s3_put_error := fun _ _ _ => None;
     im_identify := fun _ _ => inr (Num 800, Num 400);
     im_resize := fun _ data _ _ _ => inr data;
     im_convert := fun _ _ => None;
     fs_writeFile := fun _ _ _ => None;
     fs_readFile := fun _ _ => inr [x01] |}.

(** The same, with every get on the cache bucket refused by the service. *)
Definition get_refused : Services :=
  {| s3_get_error := fun _ Bucket _ =>
       if String.eqb Bucket "cache" then Some (MkError "AccessDenied")
       else None;
     s3_put_error := s3_put_error reliable;
     im_identify := im_identify reliable;
     im_resize := im_resize reliable;
     im_convert := im_convert reliable;
     fs_writeFile := fs_writeFile reliable;
     fs_readFile := fs_readFile reliable |}.

(** The same as [reliable], with every put refused. *)
Definition put_refused : Services :=
  {| s3_get_error := s3_get_error reliable;
     s3_put_error := fun _ _ _ => Some (MkError "AccessDenied");
     im_identify := im_identify reliable;
     im_resize := im_resize reliable;
     im_convert := im_convert reliable;
     fs_writeFile := fs_writeFile reliable;
     fs_readFile := fs_readFile reliable |}.

Definition config : Env :=
  {| TEMP_DIR := "/tmp/"; BUCKET_ORIGINAL := "orig"; BUCKET_CACHE := "cache";
     KEY_ORIGINAL := "o/"; KEY_CACHE := "c/" |}.

Definition cat : S3Object :=
  {| Body := [x4d; x61; x6e]; ContentType := "image/png";
     Metadata_deleted := Undefined |}.

Definition thumbnail : S3Object :=
  {| Body := [x4d; x61]; ContentType := "image/jpeg";
     Metadata_deleted := Undefined |}.

Definition removed_cat : S3Object :=
  {| Body := [x4d; x61; x6e]; ContentType := "image/png";
     Metadata_deleted := Str "true" |}.

(** Only the original is stored. *)
Definition cold : World :=
  {| s3 := {[ ("orig", "o/cat") := cat ]}; trace := [] |}.

(** The original and one resized copy are stored. *)
Definition warm : World :=
  {| s3 := {[ ("orig", "o/cat") := cat;
              ("cache", "c/cat_fit.200x100.jpg.none") := thumbnail ]};
     trace := [] |}.

(** The original is marked as deleted. *)
Definition withdrawn : World :=
  {| s3 := {[ ("orig", "o/cat") := removed_cat ]}; trace := [] |}.

End Scenario.

(** * Vocabulary of the further statements *)

Section FurtherVocabulary.
Import JS RegExp ResizeStyle Lambda.
Local Open Scope list_scope.

(** Three or six lower-case hexadecimal digits. *)
Definition is_color (s : string) : bool :=
  all_hex s
  && (Nat.eqb (String.length s) 3 || Nat.eqb (String.length s) 6).

Definition is_callback (e : Event) : bool :=
  match e with LambdaCallback _ => true | _ => false end.

Definition is_s3_get (e : Event) : bool :=
  match e with S3GetObject _ _ => true | _ => false end.

Definition is_s3_put (e : Event) : bool :=
  match e with S3PutObject _ _ _ _ => true | _ => false end.

(** The five exceptions that carry a message and no payload. *)
Definition failure_kind (r : Exception + Magicked) : bool :=
  match r with
  | inl (NotFoundException _) | inl (UploadFailedException _)
  | inl (ResizeFailedException _) | inl (ConvertFailedException _)
  | inl (DeletedException _) => true
  | _ => false
  end.
Section RequestVocabulary.

Variable env : Env.

(** [event.pathParameters.filename] *)
Variable path : string.

(** The world once the two gets have been made. *)
Definition after_gets (w : World) : World :=
  emit (originGetEvent env path) (emit (cacheGetEvent env path) w).

End RequestVocabulary.

End FurtherVocabulary.

(** * Collaborators that fail *)

Module Faults.
Import JS Lambda Scenario.

(** The same as [reliable], with [im.identify] failing. *)
Definition identify_refused : Services :=
  {| s3_get_error := s3_get_error reliable;
     s3_put_error := s3_put_error reliable;
     im_identify := fun _ _ => inl (MkError "identify");
     im_resize := im_resize reliable;
     im_convert := im_convert reliable;
     fs_writeFile := fs_writeFile reliable;
     fs_readFile := fs_readFile reliable |}.

End Faults.

(** * Properties *)

(** ** Characters and strings *)

Section StringFacts.
Import JS.

Lemma append_cons (c : ascii) (s t : string) :
  String c s +:+ t = String c (s +:+ t).
Proof. reflexivity. Qed.

Lemma append_nil_l (t : string) : "" +:+ t = t.
Proof. reflexivity. Qed.

Lemma append_nil_r (s : string) : s +:+ "" = s.
Proof.
  induction s as [|c s IH]; [reflexivity|].
  now rewrite append_cons, IH.
Qed.

Lemma append_assoc (a b c : string) : (a +:+ b) +:+ c = a +:+ (b +:+ c).
Proof.
  induction a as [|x a IH]; [reflexivity|].
  now rewrite !append_cons, IH.
Qed.

Lemma append_eq_nil (a b : string) : a +:+ b = "" -> a = "" /\ b = "".
Proof.
  destruct a; [rewrite append_nil_l; auto | rewrite append_cons; discriminate].
Qed.

Lemma toLowerCase_app (a b : string) :
  toLowerCase (a +:+ b) = toLowerCase a +:+ toLowerCase b.
Proof.
  induction a as [|x a IH]; [reflexivity|].
  rewrite append_cons. simpl. now rewrite append_cons, IH.
Qed.

Lemma lower_char_idem (c : ascii) : lower_char (lower_char c) = lower_char c.
Proof. destruct c as [[] [] [] [] [] [] [] []]; reflexivity. Qed.

Lemma toLowerCase_idem (s : string) :
  toLowerCase (toLowerCase s) = toLowerCase s.
Proof.
  induction s as [|c s IH]; simpl; [reflexivity|].
  now rewrite lower_char_idem, IH.
Qed.

Lemma split_free (sep : ascii) (s : string) :
  free_of sep s = true -> split sep s = [s].
Proof.
  induction s as [|c s IH]; simpl; [reflexivity|].
  intros [Hc Hs]%andb_true_iff.
  apply negb_true_iff in Hc. rewrite Hc, (IH Hs). reflexivity.
Qed.

Lemma split_app (sep : ascii) (a rest : string) :
  free_of sep a = true ->
  split sep (a +:+ String sep rest) = a :: split sep rest.
Proof.
  induction a as [|c a IH].
  - intros _. rewrite append_nil_l. simpl. now rewrite Ascii.eqb_refl.
  - rewrite append_cons. simpl. intros [Hc Ha]%andb_true_iff.
    apply negb_true_iff in Hc. rewrite Hc, (IH Ha). reflexivity.
Qed.

Lemma split_not_nil (sep : ascii) (s : string) : split sep s <> [].
Proof.
  destruct s as [|c s]; simpl; [discriminate|].
  destruct (Ascii.eqb c sep); [discriminate|].
  destruct (split sep s); discriminate.
Qed.

(** The first element of a split has no separator, and the string is
    that element, then (if there is more) the separator and the rest. *)
Lemma split_head (sep : ascii) (s : string) :
  exists h t, split sep s = h :: t /\ free_of sep h = true.
Proof.
  induction s as [|c s (h & t & E & F)]; simpl.
  - exists "", []. auto.
  - destruct (Ascii.eqb c sep) eqn:Hc.
    + exists "", (split sep s). auto.
    + rewrite E. exists (String c h), t. simpl. now rewrite Hc, F.
Qed.

Lemma split_all_free (sep : ascii) (s : string) :
  Forall (fun seg => free_of sep seg = true) (split sep s).
Proof.
  induction s as [|c s IH]; simpl.
  - constructor; [reflexivity | constructor].
  - destruct (Ascii.eqb c sep) eqn:Hc.
    + constructor; [reflexivity | exact IH].
    + destruct (split sep s) as [|h t].
      * constructor; [simpl; now rewrite Hc | constructor].
      * inversion IH as [|? ? Hh Ht]; subst.
        constructor; [simpl; now rewrite Hc, Hh | exact Ht].
Qed.

End StringFacts.

(** ** The matcher decides the language of the expression *)

Section RegexFacts.
Import JS RegExp.

Variable icase : bool.

Lemma lang_cat_cons r1 r2 c s1 s2 :
  lang icase r1 (String c s1) -> lang icase r2 s2 ->
  lang icase (Cat r1 r2) (String c (s1 +:+ s2)).
Proof. intros H1 H2. rewrite <- append_cons. now constructor. Qed.

Lemma nullable_lang r : nullable r = true -> lang icase r "".
Proof.
  induction r; simpl; intros H; try discriminate.
  - constructor.
  - apply andb_true_iff in H as [H1 H2].
    change "" with ("" +:+ ""). constructor; auto.
  - apply orb_true_iff in H as [H|H]; [apply lang_alt_l | apply lang_alt_r]; auto.
  - constructor.
Qed.

Lemma lang_nullable r s : lang icase r s -> s = "" -> nullable r = true.
Proof.
  induction 1; intros E; simpl; try discriminate; auto.
  - apply append_eq_nil in E as [-> ->]. rewrite IHlang1, IHlang2; auto.
  - rewrite IHlang; auto.
  - rewrite IHlang, orb_true_r; auto.
Qed.

Lemma deriv_lang r : forall c s, lang icase (deriv icase c r) s -> lang icase r (String c s).
Proof.
  induction r; simpl; intros c0 s H.
  - inversion H.
  - inversion H.
  - destruct (lit_match icase c c0) eqn:E; inversion H; subst. now constructor.
  - destruct (range_match icase lo hi c0) eqn:E; inversion H; subst.
    now constructor.
  - destruct (nullable r1) eqn:N.
    + inversion H as [| | | | ? ? ? HL | ? ? ? HR | |]; subst.
      * inversion HL; subst. apply lang_cat_cons; auto.
      * rewrite <- (append_nil_l (String c0 s)).
        constructor; [now apply nullable_lang | auto].
    + inversion H; subst. apply lang_cat_cons; auto.
  - inversion H; subst; [apply lang_alt_l | apply lang_alt_r]; auto.
  - inversion H; subst. rewrite <- append_cons. constructor; auto.
Qed.

Lemma lang_deriv r s0 :
  lang icase r s0 -> forall c s, s0 = String c s -> lang icase (deriv icase c r) s.
Proof.
  induction 1; intros c0 s0 E; simpl; try discriminate.
  - injection E as -> <-. rewrite H. constructor.
  - injection E as -> <-. rewrite H. constructor.
  - destruct s1 as [|c1 s1].
    + rewrite append_nil_l in E. subst s2.
      rewrite (lang_nullable _ _ H eq_refl).
      apply lang_alt_r. now apply IHlang2.
    + rewrite append_cons in E. injection E as -> <-.
      assert (D : lang icase (Cat (deriv icase c0 r1) r2) (s1 +:+ s2))
        by (constructor; [now apply IHlang1 | assumption]).
      destruct (nullable r1); [now apply lang_alt_l | exact D].
  - apply lang_alt_l. now apply IHlang.
  - apply lang_alt_r. now apply IHlang.
  - destruct s1 as [|c1 s1].
    + rewrite append_nil_l in E. now apply IHlang2.
    + rewrite append_cons in E. injection E as -> <-.
      constructor; [now apply IHlang1 | assumption].
Qed.

Lemma matches_lang r s : matches icase r s = true <-> lang icase r s.
Proof.
  revert r. induction s as [|c s IH]; intros r; simpl.
  - split; [apply nullable_lang | intros H; now apply (lang_nullable r "")].
  - rewrite IH. split; [apply deriv_lang | intros H; now apply (lang_deriv r _ H)].
Qed.

End RegexFacts.

(** ** What the four literals of [ResizeStyle] accept *)

Section LiteralFacts.
Import JS RegExp ResizeStyle.

Ltac by_cases c :=
  destruct c as [[] [] [] [] [] [] [] []]; vm_compute; intros;
  try reflexivity; try discriminate.

Lemma lower_upper_char (c : ascii) : lower_char (upper_char c) = lower_char c.
Proof. by_cases c. Qed.

Lemma lit_match_icase (p c : ascii) :
  lit_match true p c = true -> lower_char c = lower_char p.
Proof.
  unfold lit_match, canonicalize. intros E%Ascii.eqb_eq.
  rewrite <- (lower_upper_char c), <- E. apply lower_upper_char.
Qed.

Lemma lit_match_exact (p c : ascii) : lit_match false p c = true -> c = p.
Proof. unfold lit_match, canonicalize. now intros E%Ascii.eqb_eq. Qed.

Lemma range_match_exact (lo hi c : ascii) :
  range_match false lo hi c = in_range lo hi c.
Proof. unfold range_match. simpl. apply orb_false_r. Qed.

Lemma digit_not_x (c : ascii) : is_digit c = true -> Ascii.eqb c "x" = false.
Proof. by_cases c. Qed.

Lemma digit_lower (c : ascii) : is_digit c = true -> lower_char c = c.
Proof. by_cases c. Qed.

Lemma hex_lower (c : ascii) : is_hex c = true -> lower_char c = c.
Proof. by_cases c. Qed.

Lemma lower_char_dot (c : ascii) :
  Ascii.eqb (lower_char c) "." = Ascii.eqb c ".".
Proof. by_cases c. Qed.

Lemma all_digits_free_x (s : string) :
  all_digits s = true -> free_of "x" s = true.
Proof.
  induction s as [|c s IH]; simpl; [reflexivity|].
  intros [Hc Hs]%andb_true_iff. now rewrite (digit_not_x c Hc), IH.
Qed.

Lemma all_digits_lower (s : string) :
  all_digits s = true -> toLowerCase s = s.
Proof.
  induction s as [|c s IH]; simpl; [reflexivity|].
  intros [Hc Hs]%andb_true_iff. now rewrite (digit_lower c Hc), IH.
Qed.

Lemma all_hex_lower (s : string) : all_hex s = true -> toLowerCase s = s.
Proof.
  induction s as [|c s IH]; simpl; [reflexivity|].
  intros [Hc Hs]%andb_true_iff. now rewrite (hex_lower c Hc), IH.
Qed.

Lemma toLowerCase_free_dot (s : string) :
  free_of "." (toLowerCase s) = free_of "." s.
Proof.
  induction s as [|c s IH]; simpl; [reflexivity|].
  now rewrite lower_char_dot, IH.
Qed.

(** [[0-9]] and [[0-9]*] *)
Lemma lang_digit s :
  lang false digit s -> exists c, s = String c "" /\ is_digit c = true.
Proof.
  inversion 1; subst. rewrite range_match_exact in *. eauto.
Qed.

Lemma lang_star_digit s : lang false (Star digit) s -> all_digits s = true.
Proof.
  remember (Star digit) as r eqn:Er. induction 1; inversion Er; subst.
  - reflexivity.
  - destruct (lang_digit _ H) as (c & -> & Hc).
    rewrite append_cons, append_nil_l. simpl. rewrite Hc. now apply IHlang2.
Qed.

Lemma lang_plus_digit s : lang false (Plus digit) s -> all_digits s = true.
Proof.
  inversion 1 as [| | | ? ? ? ? H1 H2 | | | |]; subst.
  destruct (lang_digit _ H1) as (c & -> & Hc).
  rewrite append_cons, append_nil_l. simpl.
  now rewrite Hc, (lang_star_digit _ H2).
Qed.

(** The size segment is [w], an [x], then [h], both runs of digits. *)
Lemma canvas_shape (seg : string) :
  test re_canvas (Str seg) = true ->
  exists w h, seg = w +:+ "x" +:+ h
              /\ all_digits w = true /\ all_digits h = true.
Proof.
  unfold test. simpl. intros H%matches_lang.
  inversion H as [| | | | ? ? ? HL | ? ? ? HR | |]; subst.
  - inversion HL as [| | | ? ? w t Hw Ht | | | |]; subst.
    inversion Ht as [| | | ? ? x h Hx Hh | | | |]; subst.
    inversion Hx as [| ? c Hc | | | | | |]; subst.
    apply lit_match_exact in Hc as ->.
    exists w, h. split; [reflexivity|].
    split; [now apply lang_plus_digit | now apply lang_star_digit].
  - inversion HR as [| | | ? ? w t Hw Ht | | | |]; subst.
    inversion Ht as [| | | ? ? x h Hx Hh | | | |]; subst.
    inversion Hx as [| ? c Hc | | | | | |]; subst.
    apply lit_match_exact in Hc as ->.
    exists w, h. split; [reflexivity|].
    split; [now apply lang_star_digit | now apply lang_plus_digit].
Qed.

Lemma canvas_rejects_undefined : test re_canvas Undefined = false.
Proof. reflexivity. Qed.

Lemma split_canvas (w h : string) :
  all_digits w = true -> all_digits h = true ->
  split "x" (w +:+ "x" +:+ h) = [w; h].
Proof.
  intros Hw Hh. change (w +:+ "x" +:+ h) with (w +:+ String "x" h).
  rewrite (split_app "x" w h (all_digits_free_x w Hw)).
  now rewrite (split_free "x" h (all_digits_free_x h Hh)).
Qed.

Ltac invert_lang :=
  repeat match goal with
  | H : lang _ (Cat _ _) _ |- _ => inversion H; subst; clear H
  | H : lang _ (Alt _ _) _ |- _ => inversion H; subst; clear H
  | H : lang _ (Lit _) _ |- _ => inversion H; subst; clear H
  | H : lang _ (Range _ _) _ |- _ => inversion H; subst; clear H
  | H : lang _ Eps _ |- _ => inversion H; subst; clear H
  end.

Ltac lower_lits :=
  repeat match goal with
  | H : lit_match true _ _ = true |- _ =>
      apply lit_match_icase in H; simpl in H
  end.

(** Any casing of [fit] or [fill], and nothing else. *)
Lemma cover_shape (c : string) :
  test re_cover (Str c) = true ->
  toLowerCase c = "fit" \/ toLowerCase c = "fill".
Proof.
  unfold test. simpl. intros H%matches_lang.
  invert_lang; lower_lits; rewrite ?append_cons, ?append_nil_l; simpl;
    repeat match goal with H : lower_char _ = _ |- _ => rewrite H; clear H end;
    auto.
Qed.

(** Any casing of [jpg], [png] or [gif], or the empty string. *)
Lemma format_shape (f : string) :
  test re_format (Str f) = true ->
  toLowerCase f = "jpg" \/ toLowerCase f = "png" \/ toLowerCase f = "gif"
  \/ f = "".
Proof.
  unfold test. simpl. intros H%matches_lang.
  invert_lang; lower_lits; rewrite ?append_cons, ?append_nil_l; simpl;
    repeat match goal with H : lower_char _ = _ |- _ => rewrite H; clear H end;
    auto.
Qed.

Lemma format_rejects_undefined : test re_format Undefined = false.
Proof. reflexivity. Qed.

(** Three or six lower-case hexadecimal digits. *)
Lemma color_shape (b : string) :
  test re_color (Str b) = true ->
  all_hex b = true /\ (String.length b = 3%nat \/ String.length b = 6%nat).
Proof.
  unfold test. simpl. unfold hex. intros H%matches_lang.
  invert_lang; rewrite ?append_cons, ?append_nil_l; simpl;
    repeat match goal with
    | H : range_match false _ _ _ = true |- _ =>
        rewrite range_match_exact in H
    end;
    unfold is_hex;
    repeat match goal with
    | H : in_range _ _ _ = true |- _ => rewrite H; clear H
    end;
    rewrite ?orb_true_r; simpl; auto.
Qed.

Lemma color_rejects_undefined : test re_color Undefined = false.
Proof. reflexivity. Qed.

End LiteralFacts.

(** ** The constructor, segment by segment *)

Section ParserFacts.
Import JS RegExp ResizeStyle.

Lemma or_empty_default (s : string) : or (Str s) (Str "") = Str s.
Proof. destruct s; reflexivity. Qed.

Lemma dimension_number (s : string) :
  all_digits s = true ->
  ToNumber (or (Str s) (Num 0)) = Some (decimal_acc 0 s).
Proof.
  intros H. destruct s as [|c s]; [reflexivity|].
  unfold or. simpl truthy. cbv iota. simpl ToNumber.
  unfold StringToNumber. now rewrite H.
Qed.

Lemma gt_max_number (v : jsval) (n : Z) :
  ToNumber v = Some n -> gt v maxDimension = (2048 <? n).
Proof.
  unfold gt, lt, maxDimension. intros H. simpl ToNumber at 1.
  now rewrite H.
Qed.

Lemma decimal_acc_lower (s : string) :
  forall acc, 0 <= acc -> all_digits s = true -> acc <= decimal_acc acc s.
Proof.
  induction s as [|c s IH]; simpl; intros acc Hacc H; [lia|].
  apply andb_true_iff in H as [Hc Hs].
  assert (0 <= digit_val c).
  { revert Hc. destruct c as [[] [] [] [] [] [] [] []]; vm_compute;
      intros; try discriminate. }
  assert (10 * acc + digit_val c <= decimal_acc (10 * acc + digit_val c) s)
    by (apply IH; [lia | assumption]).
  lia.
Qed.

(** What [new] computes once the first two segments are known to pass
    their tests. *)
Lemma new_of_segments (p c seg w h : string) (rest : list string) :
  split "." p = c :: seg :: rest ->
  test re_cover (Str c) = true ->
  test re_canvas (Str seg) = true ->
  seg = w +:+ "x" +:+ h ->
  all_digits w = true -> all_digits h = true ->
  new (Str p) =
    if (2048 <? decimal_acc 0 w) || (2048 <? decimal_acc 0 h)
    then set_enable false (parsed c w h Undefined Undefined)
    else parsed c w h (chosen_format (index rest 0))
                      (chosen_background (index rest 1)).
Proof.
  intros Hs Hc Hseg -> Hw Hh. unfold new, separator. rewrite Hs.
  change (index (c :: _ :: rest) 0) with (Str c).
  change (index (c :: ?s :: rest) 1) with (Str s).
  change (index (c :: _ :: rest) 2) with (index rest 0).
  change (index (c :: _ :: rest) 3) with (index rest 1).
  rewrite Hc, Hseg. cbv beta iota zeta. simpl negb. cbv iota.
  rewrite (split_canvas w h Hw Hh).
  change (index [w; h] 0) with (Str w). change (index [w; h] 1) with (Str h).
  rewrite !or_empty_default.
  unfold canvas_w, canvas_h, set_canvas.
  rewrite (gt_max_number _ _ (dimension_number w Hw)).
  rewrite (gt_max_number _ _ (dimension_number h Hh)).
  destruct ((2048 <? decimal_acc 0 w) || (2048 <? decimal_acc 0 h));
    [reflexivity|].
  unfold chosen_format, chosen_background.
  destruct (test re_format (index rest 0)), (test re_color (index rest 1));
    reflexivity.
Qed.

(** A valid instance comes from a string whose two leading segments pass
    their tests and whose sizes are within the maximum. *)
Lemma new_valid_inv (params : jsval) :
  isValid (new params) = true ->
  exists p c w h rest,
    params = Str p
    /\ split "." p = c :: (w +:+ "x" +:+ h) :: rest
    /\ test re_cover (Str c) = true
    /\ test re_canvas (Str (w +:+ "x" +:+ h)) = true
    /\ all_digits w = true /\ all_digits h = true
    /\ 0 <= decimal_acc 0 w <= 2048 /\ 0 <= decimal_acc 0 h <= 2048
    /\ new params = parsed c w h (chosen_format (index rest 0))
                                 (chosen_background (index rest 1)).
Proof.
  destruct params as [| |?|p]; try discriminate.
  destruct (split "." p) as [|c [|seg rest]] eqn:Hs.
  - now destruct (split_not_nil "." p).
  - unfold new, separator. rewrite Hs.
    change (index [c] 0) with (Str c). change (index [c] 1) with Undefined.
    rewrite canvas_rejects_undefined.
    destruct (test re_cover (Str c)); discriminate.
  - destruct (test re_cover (Str c)) eqn:Hc.
    2:{ unfold new, separator. rewrite Hs.
        change (index (c :: _ :: rest) 0) with (Str c). rewrite Hc.
        discriminate. }
    destruct (test re_canvas (Str seg)) eqn:Hseg.
    2:{ unfold new, separator. rewrite Hs.
        change (index (c :: _ :: rest) 0) with (Str c).
        change (index (c :: ?s :: rest) 1) with (Str s).
        rewrite Hc, Hseg. discriminate. }
    destruct (canvas_shape seg Hseg) as (w & h & E & Hw & Hh).
    rewrite (new_of_segments p c seg w h rest Hs Hc Hseg E Hw Hh).
    destruct (2048 <? decimal_acc 0 w) eqn:Lw; [discriminate|].
    destruct (2048 <? decimal_acc 0 h) eqn:Lh; [discriminate|].
    intros _. apply Z.ltb_ge in Lw, Lh. subst seg.
    exists p, c, w, h, rest.
    pose proof (decimal_acc_lower w 0 ltac:(lia) Hw).
    pose proof (decimal_acc_lower h 0 ltac:(lia) Hh).
    repeat split; auto; lia.
Qed.

End ParserFacts.

(** ** The cache-key suffix of a valid instance *)

Section IndexNameFacts.
Import JS RegExp ResizeStyle.

Lemma digit_not_dot (c : ascii) : is_digit c = true -> Ascii.eqb c "." = false.
Proof.
  destruct c as [[] [] [] [] [] [] [] []]; vm_compute; intros;
    try reflexivity; try discriminate.
Qed.

Lemma hex_not_dot (c : ascii) : is_hex c = true -> Ascii.eqb c "." = false.
Proof.
  destruct c as [[] [] [] [] [] [] [] []]; vm_compute; intros;
    try reflexivity; try discriminate.
Qed.

Lemma all_digits_free_dot (s : string) :
  all_digits s = true -> free_of "." s = true.
Proof.
  induction s as [|c s IH]; simpl; [reflexivity|].
  intros [Hc Hs]%andb_true_iff. now rewrite (digit_not_dot c Hc), IH.
Qed.

Lemma all_hex_free_dot (s : string) :
  all_hex s = true -> free_of "." s = true.
Proof.
  induction s as [|c s IH]; simpl; [reflexivity|].
  intros [Hc Hs]%andb_true_iff. now rewrite (hex_not_dot c Hc), IH.
Qed.

Lemma digit_ascii (c : ascii) : is_digit c = true -> is_ascii c = true.
Proof.
  destruct c as [[] [] [] [] [] [] [] []]; vm_compute; intros;
    try reflexivity; try discriminate.
Qed.

Lemma hex_ascii (c : ascii) : is_hex c = true -> is_ascii c = true.
Proof.
  destruct c as [[] [] [] [] [] [] [] []]; vm_compute; intros;
    try reflexivity; try discriminate.
Qed.

Lemma lower_char_ascii (c : ascii) : is_ascii (lower_char c) = is_ascii c.
Proof. destruct c as [[] [] [] [] [] [] [] []]; reflexivity. Qed.

Lemma all_digits_ascii (s : string) :
  all_digits s = true -> all_ascii s = true.
Proof.
  induction s as [|c s IH]; simpl; [reflexivity|].
  intros [Hc Hs]%andb_true_iff. now rewrite (digit_ascii c Hc), IH.
Qed.

Lemma all_hex_ascii (s : string) : all_hex s = true -> all_ascii s = true.
Proof.
  induction s as [|c s IH]; simpl; [reflexivity|].
  intros [Hc Hs]%andb_true_iff. now rewrite (hex_ascii c Hc), IH.
Qed.

Lemma toLowerCase_ascii (s : string) :
  all_ascii (toLowerCase s) = all_ascii s.
Proof.
  induction s as [|c s IH]; simpl; [reflexivity|].
  now rewrite lower_char_ascii, IH.
Qed.

Lemma all_ascii_app (a b : string) :
  all_ascii (a +:+ b) = all_ascii a && all_ascii b.
Proof.
  induction a as [|c a IH]; [reflexivity|].
  rewrite append_cons. simpl. now rewrite IH, andb_assoc.
Qed.

Lemma free_of_app (sep : ascii) (a b : string) :
  free_of sep (a +:+ b) = free_of sep a && free_of sep b.
Proof.
  induction a as [|c a IH]; [reflexivity|].
  rewrite append_cons. simpl. now rewrite IH, andb_assoc.
Qed.

Lemma canvas_free_dot (w h : string) :
  all_digits w = true -> all_digits h = true ->
  free_of "." (w +:+ "x" +:+ h) = true.
Proof.
  intros Hw Hh. rewrite !free_of_app.
  now rewrite (all_digits_free_dot w Hw), (all_digits_free_dot h Hh).
Qed.

Lemma canvas_lower (w h : string) :
  all_digits w = true -> all_digits h = true ->
  toLowerCase (w +:+ "x" +:+ h) = w +:+ "x" +:+ h.
Proof.
  intros Hw Hh. rewrite !toLowerCase_app.
  now rewrite (all_digits_lower w Hw), (all_digits_lower h Hh).
Qed.

(** The lower-cased cover passes the cover test again. *)
Lemma cover_lower (c : string) :
  test re_cover (Str c) = true ->
  test re_cover (Str (toLowerCase c)) = true
  /\ free_of "." (toLowerCase c) = true.
Proof. intros [E|E]%cover_shape; rewrite E; split; reflexivity. Qed.

(** The chosen format is a string that, lower-cased, the format test
    accepts and keeps. *)
Lemma chosen_format_lower (arr : list string) (i : nat) :
  exists f, chosen_format (index arr i) = Str f
            /\ chosen_format (Str (toLowerCase f)) = Str (toLowerCase f)
            /\ free_of "." (toLowerCase f) = true
            /\ all_ascii (toLowerCase f) = true.
Proof.
  unfold chosen_format at 1, index.
  destruct (nth_error arr i) as [s|].
  - destruct (test re_format (Str s)) eqn:T.
    + exists s. split; [reflexivity|].
      destruct (format_shape s T) as [E|[E|[E|E]]];
        [rewrite E ..| subst s]; repeat split.
    + exists "jpg". repeat split.
  - rewrite format_rejects_undefined. exists "jpg". repeat split.
Qed.

(** The chosen background is a lower-case string that the colour test
    treats the same way again. *)
Lemma chosen_background_lower (arr : list string) (i : nat) :
  exists b, chosen_background (index arr i) = Str b
            /\ chosen_background (Str b) = Str b
            /\ toLowerCase b = b
            /\ free_of "." b = true
            /\ all_ascii b = true.
Proof.
  unfold chosen_background at 1, index.
  destruct (nth_error arr i) as [s|].
  - destruct (test re_color (Str s)) eqn:T.
    + exists s. destruct (color_shape s T) as [H _].
      unfold chosen_background. rewrite T.
      repeat split;
        [now apply all_hex_lower | now apply all_hex_free_dot
        | now apply all_hex_ascii].
    + exists "none". repeat split.
  - rewrite color_rejects_undefined. exists "none". repeat split.
Qed.

Lemma index_name_parsed (c w h f b : string) :
  getIndexName (parsed c w h (Str f) (Str b)) =
  toLowerCase c +:+ "." +:+ toLowerCase (w +:+ "x" +:+ h) +:+ "."
  +:+ toLowerCase f +:+ "." +:+ toLowerCase b.
Proof.
  unfold getIndexName, parsed, isValid, separator. simpl.
  rewrite !toLowerCase_app, !append_assoc. reflexivity.
Qed.

(** The suffix of a valid instance splits back into its four fields. *)
Lemma split_index_name (lc seg lf b : string) :
  free_of "." lc = true -> free_of "." seg = true ->
  free_of "." lf = true -> free_of "." b = true ->
  split "." (lc +:+ "." +:+ seg +:+ "." +:+ lf +:+ "." +:+ b)
  = [lc; seg; lf; b].
Proof.
  intros H1 H2 H3 H4.
  change (lc +:+ "." +:+ seg +:+ "." +:+ lf +:+ "." +:+ b)
    with (lc +:+ String "." (seg +:+ String "." (lf +:+ String "." b))).
  rewrite (split_app "." lc _ H1), (split_app "." seg _ H2).
  now rewrite (split_app "." lf _ H3), (split_free "." b H4).
Qed.

End IndexNameFacts.

(** ** The parser: validity, fields and cache-key suffix *)

Section ParserClaims.
Import JS RegExp ResizeStyle.

(** A valid instance in full: the token's segments, the fields kept and
    the suffix, together with the way the suffix splits again. *)
Lemma valid_normal_form (params : jsval) :
  isValid (new params) = true ->
  exists p c w h rest f b,
    params = Str p
    /\ split "." p = c :: (w +:+ "x" +:+ h) :: rest
    /\ test re_cover (Str c) = true
    /\ test re_canvas (Str (w +:+ "x" +:+ h)) = true
    /\ (all_digits w = true /\ all_digits h = true)
    /\ (0 <= decimal_acc 0 w <= 2048 /\ 0 <= decimal_acc 0 h <= 2048)
    /\ chosen_format (index rest 0) = Str f
    /\ chosen_background (index rest 1) = Str b
    /\ new params = parsed c w h (Str f) (Str b)
    /\ getIndexName (new params)
       = toLowerCase c +:+ "." +:+ (w +:+ "x" +:+ h) +:+ "."
         +:+ toLowerCase f +:+ "." +:+ b
    /\ split "." (getIndexName (new params))
       = [toLowerCase c; w +:+ "x" +:+ h; toLowerCase f; b].
Proof.
  intros V.
  destruct (new_valid_inv params V)
    as (p & c & w & h & rest & -> & Hs & Hc & Hseg & Hw & Hh & Bw & Bh & E).
  destruct (chosen_format_lower rest 0) as (f & Ef & _ & Ff & _).
  destruct (chosen_background_lower rest 1) as (b & Eb & _ & Lb & Fb & _).
  assert (N : getIndexName (new (Str p))
              = toLowerCase c +:+ "." +:+ (w +:+ "x" +:+ h) +:+ "."
                +:+ toLowerCase f +:+ "." +:+ b).
  { rewrite E, Ef, Eb, index_name_parsed.
    now rewrite (canvas_lower w h Hw Hh), Lb. }
  exists p, c, w, h, rest, f, b.
  rewrite E, Ef, Eb. repeat split; auto; try lia.
  - now rewrite <- Ef, <- Eb, <- E.
  - rewrite <- Ef, <- Eb, <- E, N. apply split_index_name; auto.
    + now apply cover_lower.
    + now apply canvas_free_dot.
Qed.

(** Only ASCII text reaches [toLowerCase]: the suffix is the lower
    case of a name made of characters below 128. *)
Lemma index_name_ascii_fields (params : jsval) :
  exists name,
    getIndexName (new params) = toLowerCase name /\ all_ascii name = true.
Proof.
  destruct (isValid (new params)) eqn:V.
  - destruct (new_valid_inv params V)
      as (p & c & w & h & rest & -> & _ & Hc & _ & Hw & Hh & _ & _ & E).
    destruct (chosen_format_lower rest 0) as (f & Ef & _ & _ & Af).
    destruct (chosen_background_lower rest 1) as (b & Eb & _ & _ & _ & Ab).
    exists (c +:+ "." +:+ w +:+ "x" +:+ h +:+ "." +:+ f +:+ "." +:+ b).
    split.
    + rewrite E, Ef, Eb. unfold getIndexName, parsed, isValid, separator.
      reflexivity.
    + assert (Ac : all_ascii c = true).
      { rewrite <- toLowerCase_ascii.
        destruct (cover_shape c Hc) as [L|L]; now rewrite L. }
      rewrite toLowerCase_ascii in Af.
      rewrite !all_ascii_app, Ac, Af, Ab.
      now rewrite (all_digits_ascii w Hw), (all_digits_ascii h Hh).
  - exists "full". unfold getIndexName. now rewrite V.
Qed.

(** X19. Only runs of digits are ever kept as a target size, so only
    such strings are converted to numbers. *)
Lemma canvas_fields_digits (params : jsval) (s : string) :
  getWidth (new params) = Str s \/ getHeight (new params) = Str s ->
  all_digits s = true.
Proof.
  destruct params as [| |?|p]; try (intros [H|H]; discriminate).
  destruct (split "." p) as [|c [|seg rest]] eqn:Hs.
  - now destruct (split_not_nil "." p).
  - unfold new, separator. rewrite Hs.
    change (index [c] 0) with (Str c). change (index [c] 1) with Undefined.
    rewrite canvas_rejects_undefined.
    destruct (test re_cover (Str c)); intros [H|H]; discriminate.
  - destruct (test re_cover (Str c)) eqn:Hc.
    2:{ unfold new, separator. rewrite Hs.
        change (index (c :: _ :: rest) 0) with (Str c). rewrite Hc.
        intros [H|H]; discriminate. }
    destruct (test re_canvas (Str seg)) eqn:Hseg.
    2:{ unfold new, separator. rewrite Hs.
        change (index (c :: _ :: rest) 0) with (Str c).
        change (index (c :: ?s :: rest) 1) with (Str s).
        rewrite Hc, Hseg. intros [H|H]; discriminate. }
    destruct (canvas_shape seg Hseg) as (w & h & E & Hw & Hh).
    rewrite (new_of_segments p c seg w h rest Hs Hc Hseg E Hw Hh).
    assert (D : forall d, all_digits d = true ->
                or (Str d) (Num 0) = Str s -> all_digits s = true).
    { intros [|x d] Hd; [discriminate|].
      unfold or. simpl. intros [= <-]. exact Hd. }
    destruct (_ || _); unfold getWidth, getHeight, set_enable, parsed;
      simpl canvas_w; simpl canvas_h; intros [H|H]; eauto.
Qed.

(** C9. For every token that parses to a valid instance, the cache-key
    suffix it produces, parsed as a token in its turn, gives a valid
    instance with the same cache-key suffix. *)
Theorem index_name_reparse (t : string) :
  isValid (new (Str t)) = true ->
  let key := getIndexName (new (Str t)) in
  isValid (new (Str key)) = true
  /\ getIndexName (new (Str key)) = key.
Proof.
  intros V key.
  destruct (valid_normal_form _ V)
    as (p & c & w & h & rest & f & b & _ & _ & Hc & Hseg & [Hw Hh]
        & [Bw Bh] & Ef & Eb & _ & N & S).
  fold key in N, S.
  destruct (chosen_format_lower rest 0) as (f' & Ef' & Kf & _ & _).
  destruct (chosen_background_lower rest 1) as (b' & Eb' & Kb & Lb & _ & _).
  rewrite Ef in Ef'. injection Ef' as <-.
  rewrite Eb in Eb'. injection Eb' as <-.
  assert (E : new (Str key)
              = parsed (toLowerCase c) w h (Str (toLowerCase f)) (Str b)).
  { rewrite (new_of_segments key (toLowerCase c) (w +:+ "x" +:+ h) w h
               [toLowerCase f; b] S (proj1 (cover_lower c Hc)) Hseg
               eq_refl Hw Hh).
    replace (2048 <? decimal_acc 0 w) with false
      by (symmetry; apply Z.ltb_ge; lia).
    replace (2048 <? decimal_acc 0 h) with false
      by (symmetry; apply Z.ltb_ge; lia).
    simpl orb. cbv iota.
    change (index [toLowerCase f; b] 0) with (Str (toLowerCase f)).
    change (index [toLowerCase f; b] 1) with (Str b).
    now rewrite Kf, Kb. }
  rewrite E. split; [reflexivity|].
  rewrite index_name_parsed, !toLowerCase_idem, Lb.
  now rewrite (canvas_lower w h Hw Hh), N.
Qed.

Lemma index_name_reparse_witness :
  isValid (new (Str "FILL.0200x.PNG.0af")) = true
  /\ getIndexName (new (Str "FILL.0200x.PNG.0af")) = "fill.0200x.png.0af"
  /\ isValid (new (Str "fill.0200x.png.0af")) = true
  /\ getIndexName (new (Str "fill.0200x.png.0af")) = "fill.0200x.png.0af".
Proof.
  split; [reflexivity|]. split; [reflexivity|].
  exact (index_name_reparse "FILL.0200x.PNG.0af" eq_refl).
Defined.

(** C4. The cache-key suffix of a valid instance is the lower-cased
    text [cover.WxH.format.background], where the cover and the two size
    literals [W] and [H] are the token's own first segment and the two
    sides of its second segment, kept as written; the suffix of an
    invalid instance is [full]. *)
Theorem index_name_spec (params : jsval) :
  let rs := new params in
  if isValid rs then
    exists p c w h rest,
      params = Str p
      /\ split "." p = c :: (w +:+ "x" +:+ h) :: rest
      /\ split "x" (w +:+ "x" +:+ h) = [w; h]
      /\ getIndexName rs
         = toLowerCase (c +:+ "." +:+ w +:+ "x" +:+ h +:+ "."
                        +:+ ToString (getFormat rs) +:+ "."
                        +:+ ToString (background rs))
  else getIndexName rs = "full".
Proof.
  intros rs. subst rs. destruct (isValid (new params)) eqn:V.
  - destruct (valid_normal_form _ V)
      as (p & c & w & h & rest & f & b & -> & Hs & _ & _ & [Hw Hh]
          & _ & _ & _ & E & _ & _).
    exists p, c, w, h, rest. repeat split; auto.
    + now apply split_canvas.
    + rewrite E. unfold getIndexName, parsed, isValid, getFormat, separator.
      simpl. reflexivity.
  - unfold getIndexName. now rewrite V.
Qed.

(** The literals [0] and the empty string give different suffixes. *)
Example index_name_zero_and_empty_differ :
  getIndexName (new (Str "fit.0x5")) = "fit.0x5.jpg.none"
  /\ getIndexName (new (Str "fit.x5")) = "fit.x5.jpg.none"
  /\ getIndexName (new (Str "FIT.x5.JPG")) = "fit.x5.jpg.none"
  /\ getIndexName (new (Str "fit.5000x5")) = "full"
  /\ getIndexName (new Undefined) = "full".
Proof. repeat split. Qed.

(** C1, as the code has it. For every valid token whose format segment
    is absent, or present, not empty and not a casing of [jpg], [png] or
    [gif], [getFormat()] is [jpg] and so is the format field of the
    cache-key suffix; when the format segment is the empty string,
    [getFormat()] and the format field are the empty string. *)
Theorem format_default (t : string) :
  let rs := new (Str t) in
  let segment := index (split "." t) 2 in
  isValid rs = true ->
  (names_format segment = false -> segment <> Str "" ->
   getFormat rs = Str "jpg"
   /\ index (split "." (getIndexName rs)) 2 = Str "jpg")
  /\ (segment = Str "" ->
      getFormat rs = Str ""
      /\ index (split "." (getIndexName rs)) 2 = Str "").
Proof.
  intros rs segment V. subst rs segment.
  destruct (valid_normal_form _ V)
    as (p & c & w & h & rest & f & b & Ep & Hs & _ & _ & _ & _ & Ef & _
        & E & _ & S).
  injection Ep as <-. rewrite S, E, Hs. unfold getFormat, parsed. simpl format.
  change (index (c :: _ :: rest) 2) with (index rest 0).
  change (index [_; _; toLowerCase f; b] 2) with (Str (toLowerCase f)).
  unfold chosen_format in Ef. split.
  - intros Hn Hne. destruct (test re_format (index rest 0)) eqn:T.
    + exfalso. destruct (index rest 0) as [| | |s] eqn:Ei;
        try discriminate.
      destruct (format_shape s T) as [L|[L|[L|L]]];
        [unfold names_format in Hn; rewrite L in Hn; discriminate ..
        | subst s; now apply Hne].
    + injection Ef as <-. split; reflexivity.
  - intros Ei. rewrite Ei in Ef. simpl in Ef. injection Ef as <-.
    split; reflexivity.
Qed.

Lemma format_default_witness :
  (getFormat (new (Str "fit.200x100.bmp.fff")) = Str "jpg"
   /\ index (split "." (getIndexName (new (Str "fit.200x100.bmp.fff")))) 2
      = Str "jpg")
  /\ (getFormat (new (Str "fit.200x100..fff")) = Str ""
      /\ index (split "." (getIndexName (new (Str "fit.200x100..fff")))) 2
         = Str "").
Proof.
  split.
  - apply (proj1 (format_default "fit.200x100.bmp.fff" eq_refl));
      [reflexivity | discriminate].
  - apply (proj2 (format_default "fit.200x100..fff" eq_refl)). reflexivity.
Defined.

(** C1 fails on a token whose format segment is present and empty: the
    token is valid, the segment is the empty string, and both
    [getFormat()] and the suffix's format field are the empty string
    instead of [jpg]. *)
Lemma format_empty_segment_kept :
  let rs := new (Str "fill.200x100..000") in
  isValid rs = true
  /\ index (split "." "fill.200x100..000") 2 = Str ""
  /\ getFormat rs = Str ""
  /\ getFormat rs <> Str "jpg"
  /\ getIndexName rs = "fill.200x100..000"
  /\ index (split "." (getIndexName rs)) 2 <> Str "jpg".
Proof. repeat split; discriminate. Qed.

End ParserClaims.

(** ** Size limit and resize geometry *)

Section GeometryClaims.
Import JS RegExp ResizeStyle.

(** The numbers behind the target size of a valid instance. *)
Lemma valid_target_numbers (params : jsval) :
  isValid (new params) = true ->
  exists tw th,
    ToNumber (getWidth (new params)) = Some tw
    /\ ToNumber (getHeight (new params)) = Some th
    /\ 0 <= tw <= 2048 /\ 0 <= th <= 2048.
Proof.
  intros V.
  destruct (valid_normal_form _ V)
    as (p & c & w & h & rest & f & b & _ & _ & _ & _ & [Hw Hh]
        & [Bw Bh] & _ & _ & E & _ & _).
  exists (decimal_acc 0 w), (decimal_acc 0 h).
  rewrite E. unfold getWidth, getHeight, parsed. simpl canvas_w. simpl canvas_h.
  rewrite (dimension_number w Hw), (dimension_number h Hh). auto.
Qed.

(** C7. A token whose cover is a casing of [fit] or [fill] and whose
    width or height, the two sides of its second segment as the
    constructor splits it, has a number above 2048 is invalid; and the
    target width and height of every valid instance are numbers of at
    most 2048. *)
Theorem max_dimension (t : string) :
  let rs := new (Str t) in
  (forall seg n,
     test re_cover (index (split "." t) 0) = true ->
     index (split "." t) 1 = Str seg ->
     ToNumber (index (split "x" seg) 0) = Some n
     \/ ToNumber (index (split "x" seg) 1) = Some n ->
     2048 < n ->
     isValid rs = false)
  /\ (isValid rs = true ->
      exists tw th,
        ToNumber (getWidth rs) = Some tw /\ ToNumber (getHeight rs) = Some th
        /\ tw <= 2048 /\ th <= 2048).
Proof.
  intros rs. subst rs. split.
  - intros seg n _ Hseg Hn Hbig.
    destruct (isValid (new (Str t))) eqn:V; [exfalso | reflexivity].
    destruct (valid_normal_form _ V)
      as (p & c & w & h & rest & f & b & Ep & Hs & _ & _ & [Hw Hh]
          & [Bw Bh] & _).
    injection Ep as <-. rewrite Hs in Hseg.
    change (index (c :: ?s :: rest) 1) with (Str s) in Hseg.
    injection Hseg as <-. rewrite (split_canvas w h Hw Hh) in Hn.
    change (index [w; h] 0) with (Str w) in Hn.
    change (index [w; h] 1) with (Str h) in Hn.
    simpl ToNumber in Hn. unfold StringToNumber in Hn.
    rewrite Hw, Hh in Hn. destruct Hn as [Hn|Hn]; injection Hn as <-; lia.
  - intros V. destruct (valid_target_numbers _ V) as (tw & th & ? & ? & ? & ?).
    exists tw, th. repeat split; auto; lia.
Qed.

Lemma max_dimension_witness :
  isValid (new (Str "Fill.100x2049.png")) = false
  /\ exists tw th,
       ToNumber (getWidth (new (Str "fit.2048x7"))) = Some tw
       /\ ToNumber (getHeight (new (Str "fit.2048x7"))) = Some th
       /\ tw <= 2048 /\ th <= 2048.
Proof.
  split.
  - apply (proj1 (max_dimension "Fill.100x2049.png") "100x2049" 2049);
      [reflexivity | reflexivity | right; reflexivity | lia].
  - apply (proj2 (max_dimension "fit.2048x7")). reflexivity.
Defined.

(** The constrained side: the smaller of the source and the target. *)
Lemma constrained_min (o t : Z) (target : jsval) :
  ToNumber target = Some t ->
  ToNumber (if lt (Num o) target then Num o else target) = Some (Z.min o t).
Proof.
  intros H. unfold lt. simpl ToNumber at 1. rewrite H.
  destruct (Z.ltb_spec o t).
  - simpl. f_equal. lia.
  - rewrite H. f_equal. lia.
Qed.

(** X8. With the cover written exactly [fit], the longer source side is
    the constrained one. *)
Lemma fit_exact_constrains_longer_side (t : string) (ow oh : Z) :
  let rs := new (Str t) in
  isValid rs = true ->
  cover rs = Str "fit" ->
  exists tw th,
    ToNumber (getWidth rs) = Some tw /\ ToNumber (getHeight rs) = Some th
    /\ if ow <? oh
       then exists v, getResizeData rs (Num ow) (Num oh) = (Num 0, v)
                      /\ ToNumber v = Some (Z.min oh th)
       else exists v, getResizeData rs (Num ow) (Num oh) = (v, Num 0)
                      /\ ToNumber v = Some (Z.min ow tw).
Proof.
  intros rs V C. subst rs.
  destruct (valid_target_numbers _ V) as (tw & th & Hw & Hh & _ & _).
  exists tw, th. split; [exact Hw|]. split; [exact Hh|].
  unfold getResizeData. rewrite C.
  change (lt (Num ow) (Num oh)) with (ow <? oh).
  change (strict_eq (Str "fit") (Str "fit")) with true. cbv iota.
  destruct (ow <? oh); eexists; (split; [reflexivity|]);
    now apply constrained_min.
Qed.

(** C2 at the failing input. The token [FIT.200x100] is valid, not
    keep-aspect, and its cover is a casing of [fit]; on a 400 by 800
    portrait source [getResizeData] takes the other branch and
    constrains the width to 200, where constraining the longer side
    gives a zero width and the height 100. *)
Lemma uppercase_fit_resizes_as_fill :
  let rs := new (Str "FIT.200x100") in
  isValid rs = true
  /\ isKeepAspect rs = false
  /\ test re_cover (cover rs) = true
  /\ toLowerCase (ToString (cover rs)) = "fit"
  /\ getResizeData rs (Num 400) (Num 800) = (Str "200", Num 0)
  /\ getResizeData (new (Str "fit.200x100")) (Num 400) (Num 800)
     = (Num 0, Str "100")
  /\ getResizeData rs (Num 400) (Num 800)
     = getResizeData (new (Str "fill.200x100")) (Num 400) (Num 800)
  /\ getIndexName rs = getIndexName (new (Str "fit.200x100")).
Proof. repeat split. Qed.

(** C8, as the code has it. For every valid instance that is not
    keep-aspect and every source size, [getResizeData] returns a pair
    with the number 0 on one side and, on the other, the smaller of the
    source and the target on that side; exactly one side is zero-valued
    if and only if that smaller value is not zero. *)
Theorem resize_data_spec (t : string) (ow oh : Z) :
  let rs := new (Str t) in
  isValid rs = true ->
  isKeepAspect rs = false ->
  exists tw th,
    ToNumber (getWidth rs) = Some tw /\ ToNumber (getHeight rs) = Some th
    /\ let '(rw, rh) := getResizeData rs (Num ow) (Num oh) in
       (rh = Num 0 /\ ToNumber rw = Some (Z.min ow tw)
        /\ (xorb (zero_valued rw) (zero_valued rh) = true
            <-> Z.min ow tw <> 0))
       \/ (rw = Num 0 /\ ToNumber rh = Some (Z.min oh th)
           /\ (xorb (zero_valued rw) (zero_valued rh) = true
               <-> Z.min oh th <> 0)).
Proof.
  intros rs V _. subst rs.
  destruct (valid_target_numbers _ V) as (tw & th & Hw & Hh & _ & _).
  exists tw, th. split; [exact Hw|]. split; [exact Hh|].
  pose proof (constrained_min ow tw _ Hw) as Mw.
  pose proof (constrained_min oh th _ Hh) as Mh.
  assert (Z : forall v n, ToNumber v = Some n ->
              (xorb (zero_valued v) (zero_valued (Num 0)) = true <-> n <> 0)
              /\ (xorb (zero_valued (Num 0)) (zero_valued v) = true
                  <-> n <> 0)).
  { intros v n Hv. unfold zero_valued. rewrite Hv. simpl.
    destruct (Z.eqb_spec n 0); simpl; split; split; intros; congruence. }
  unfold getResizeData.
  destruct (lt (Num ow) (Num oh)), (strict_eq _ _).
  - right. split; [reflexivity|]. split; [exact Mh | apply (Z _ _ Mh)].
  - left. split; [reflexivity|]. split; [exact Mw | apply (Z _ _ Mw)].
  - left. split; [reflexivity|]. split; [exact Mw | apply (Z _ _ Mw)].
  - right. split; [reflexivity|]. split; [exact Mh | apply (Z _ _ Mh)].
Qed.

Lemma resize_data_spec_witness :
  exists tw th,
    ToNumber (getWidth (new (Str "fill.200x100..000"))) = Some tw
    /\ ToNumber (getHeight (new (Str "fill.200x100..000"))) = Some th
    /\ let '(rw, rh) :=
         getResizeData (new (Str "fill.200x100..000")) (Num 800) (Num 400) in
       (rh = Num 0 /\ ToNumber rw = Some (Z.min 800 tw)
        /\ (xorb (zero_valued rw) (zero_valued rh) = true
            <-> Z.min 800 tw <> 0))
       \/ (rw = Num 0 /\ ToNumber rh = Some (Z.min 400 th)
           /\ (xorb (zero_valued rw) (zero_valued rh) = true
               <-> Z.min 400 th <> 0)).
Proof.
  exact (resize_data_spec "fill.200x100..000" 800 400 eq_refl eq_refl).
Defined.

(** C8 fails on a target written [0]: [fit.0x5] is valid and not
    keep-aspect, and on a 10 by 5 source both components of the pair
    are zero-valued (the text [0] and the number 0), not exactly one.
    It also fails on a source without extent, where both components
    are the number 0. *)
Lemma resize_data_both_zero :
  let rs := new (Str "fit.0x5") in
  isValid rs = true
  /\ isKeepAspect rs = false
  /\ getResizeData rs (Num 10) (Num 5) = (Str "0", Num 0)
  /\ zero_valued (Str "0") = true /\ zero_valued (Num 0) = true
  /\ isValid (new (Str "fit.5x5")) = true
  /\ isKeepAspect (new (Str "fit.5x5")) = false
  /\ getResizeData (new (Str "fit.5x5")) (Num 0) (Num 0) = (Num 0, Num 0).
Proof. repeat split. Qed.

End GeometryClaims.

(** ** Every operation only adds to the trace *)

Section TraceFacts.
Import JS Lambda.
Local Open Scope list_scope.

Lemma appends_ret {E A} (a : A) : appends (@ret E A a).
Proof. intros w. exists []. simpl. now rewrite app_nil_r. Qed.

Lemma appends_fail {E A} (e : E) : appends (@fail E A e).
Proof. intros w. exists []. simpl. now rewrite app_nil_r. Qed.

Lemma appends_handle {E F A B} (m : Async E A)
  (on_err : E -> Async F B) (on_ok : A -> Async F B) :
  appends m -> (forall e, appends (on_err e)) ->
  (forall a, appends (on_ok a)) -> appends (handle m on_err on_ok).
Proof.
  intros Hm He Ho w. unfold handle.
  destruct (Hm w) as [evs1 H1]. destruct (m w) as [w1 [e|a]]; simpl in H1.
  - destruct (He e w1) as [evs2 H2]. exists (evs1 ++ evs2).
    now rewrite H2, H1, app_assoc.
  - destruct (Ho a w1) as [evs2 H2]. exists (evs1 ++ evs2).
    now rewrite H2, H1, app_assoc.
Qed.

Lemma appends_bind {E A B} (m : Async E A) (k : A -> Async E B) :
  appends m -> (forall a, appends (k a)) -> appends (bind m k).
Proof.
  intros Hm Hk. change (bind m k) with (handle m (fun e => fail e) k).
  apply appends_handle; auto using @appends_fail.
Qed.

Lemma appends_emit {E A} (ev : Event) (f : World -> E + A) :
  appends (fun w => (emit ev w, f w)).
Proof. intros w. exists [ev]. reflexivity. Qed.

Section Calls.
Variable svc : Services.
Variable env : Env.
Variable path : string.

Lemma appends_s3_getObject B K : appends (s3_getObject svc B K).
Proof.
  intros w. exists [S3GetObject B K]. unfold s3_getObject.
  destruct (s3_get_error svc (trace w) B K); [reflexivity|].
  destruct (s3 w !! (B, K)); reflexivity.
Qed.

Lemma appends_s3_putObject B K d c : appends (s3_putObject svc B K d c).
Proof.
  intros w. exists [S3PutObject B K d c]. unfold s3_putObject.
  destruct (s3_put_error svc (trace w) B K); reflexivity.
Qed.

Lemma appends_download B K : appends (download svc B K).
Proof.
  apply appends_handle;
    auto using appends_s3_getObject, @appends_ret, @appends_fail.
Qed.

Lemma appends_upload d c : appends (upload svc env path d c).
Proof. apply appends_s3_putObject. Qed.

Lemma appends_resize d c : appends (resize svc path d c).
Proof.
  apply appends_handle; auto using @appends_ret, @appends_fail.
  apply appends_emit.
Qed.

Lemma appends_convert d c : appends (convert svc env path d c).
Proof.
  unfold convert.
  apply appends_bind; [apply appends_emit | intros [ow oh]].
  destruct (ResizeStyle.getResizeData _ ow oh) as [rw rh].
  repeat (apply appends_bind; [apply appends_emit | intros ?]).
  apply appends_ret.
Qed.

Lemma appends_OriginFetch : appends (OriginFetch svc env path).
Proof.
  apply appends_handle; [apply appends_download | intros; apply appends_fail |].
  intros [[d c] o]. destruct (truthy (Metadata_deleted o));
    [apply appends_fail | apply appends_ret].
Qed.

Lemma appends_ValidateResize x : appends (ValidateResize svc env path x).
Proof.
  destruct x as [d c]. unfold ValidateResize.
  destruct (negb _); [|apply appends_ret].
  apply appends_handle; [apply appends_upload | |]; intros; apply appends_fail.
Qed.

Lemma appends_Resize x : appends (Resize svc env path x).
Proof.
  destruct x as [d c]. unfold Resize.
  destruct (ResizeStyle.isKeepAspect _); apply appends_handle;
    try (intros; apply appends_fail); try (intros; apply appends_ret).
  - apply appends_resize.
  - apply appends_convert.
Qed.

Lemma appends_CacheStore x : appends (CacheStore svc env path x).
Proof.
  destruct x as [d c]. unfold CacheStore.
  apply appends_handle; [apply appends_upload | |]; intros;
    [apply appends_fail | apply appends_ret].
Qed.

Lemma appends_waterfall_from_OriginFetch :
  appends (waterfall_from_OriginFetch svc env path).
Proof.
  unfold waterfall_from_OriginFetch.
  repeat (apply appends_bind; intros);
    auto using appends_OriginFetch, appends_ValidateResize, appends_Resize,
      appends_CacheStore.
Qed.

Lemma respond_appends (r : Exception + Magicked) (w : World) :
  exists evs, trace (fst (respond r w)) = trace w ++ evs.
Proof.
  destruct r as [[]|]; simpl; rewrite <- ?app_assoc; eauto.
Qed.

Lemma run_appends (tasks : Async Exception Magicked) (w : World) :
  appends tasks ->
  exists evs, trace (final (run tasks w)) = trace w ++ evs.
Proof.
  intros H. unfold run. destruct (H w) as [evs1 H1].
  destruct (tasks w) as [w1 r]. simpl in H1.
  destruct (respond_appends r w1) as [evs2 H2].
  destruct (respond r w1) as [w2 resp]. simpl in *.
  exists (evs1 ++ evs2). now rewrite H2, H1, app_assoc.
Qed.

End Calls.
End TraceFacts.

(** ** The request pipeline *)

Section PipelineClaims.
Import JS Lambda.
Local Open Scope list_scope.

Variable svc : Services.
Variable env : Env.

(** [event.pathParameters.filename] *)
Variable path : string.

Local Abbreviation cacheKey := (cacheKey env path).
Local Abbreviation originKey := (originKey env path).
Local Abbreviation cacheGetEvent := (cacheGetEvent env path).
Local Abbreviation originGetEvent := (originGetEvent env path).
Local Abbreviation cache_get := (cache_get svc env path).
Local Abbreviation origin_get := (origin_get svc env path).
Local Abbreviation cache_put_ok := (cache_put_ok svc env path).

Lemma s3_getObject_emits (Bucket Key : string) (w : World) :
  s3_getObject svc Bucket Key w
  = (emit (S3GetObject Bucket Key) w, snd (s3_getObject svc Bucket Key w)).
Proof.
  unfold s3_getObject.
  destruct (s3_get_error svc (trace w) Bucket Key); [reflexivity|].
  destruct (s3 w !! (Bucket, Key)); reflexivity.
Qed.

Lemma CacheLookup_hit (w : World) (o : S3Object) :
  cache_get w = inr o ->
  CacheLookup svc env path w
  = (emit cacheGetEvent w,
     inl (new_ExistCacheException (Body o) (ContentType o))).
Proof.
  unfold cache_get, CacheLookup, download, handle. intros H.
  fold cacheKey. rewrite s3_getObject_emits, H. reflexivity.
Qed.

Lemma CacheLookup_miss (w : World) (e : Error) :
  cache_get w = inl e ->
  CacheLookup svc env path w = (emit cacheGetEvent w, inr tt).
Proof.
  unfold cache_get, CacheLookup, download, handle. intros H.
  fold cacheKey. rewrite s3_getObject_emits, H. reflexivity.
Qed.

Lemma OriginFetch_found (w : World) (o : S3Object) :
  origin_get w = inr o ->
  OriginFetch svc env path (emit cacheGetEvent w)
  = (emit originGetEvent (emit cacheGetEvent w),
     if truthy (Metadata_deleted o) then inl new_DeletedException
     else inr (Body o, ContentType o)).
Proof.
  unfold origin_get, OriginFetch, download, handle. intros H.
  fold originKey. rewrite s3_getObject_emits, H. unfold ret, fail.
  destruct (truthy (Metadata_deleted o)); reflexivity.
Qed.

(** C3. When the cache-bucket get for the request's cache key succeeds,
    the handler answers with status 200, the cached bytes in base64 as
    body and the cached content type as [Content-Type]; the get is the
    only call it makes to S3 or ImageMagick (no origin get, no image
    operation, no put) and the stored objects are unchanged. *)
Theorem cache_hit (w : World) (o : S3Object) :
  cache_get w = inr o ->
  let out := handler svc env path w in
  let answer :=
    {| statusCode := 200;
       headers := {[ "Content-Type" := ContentType o ]};
       isBase64Encoded := true;
       body := Buffer.base64 (Body o) |} in
  response out = Some answer
  /\ result out = inl (ExistCacheException answer)
  /\ trace (final out)
     = trace w ++ [cacheGetEvent; ConsoleLog (Str "catch exception");
                   ConsoleLog (Num 200); LambdaCallback answer]
  /\ s3 (final out) = s3 w.
Proof.
  intros H out answer.
  assert (E : out = {| final := emit (LambdaCallback answer)
                                  (emit (ConsoleLog (Num 200))
                                     (emit (ConsoleLog (Str "catch exception"))
                                        (emit cacheGetEvent w)));
                       result := inl (ExistCacheException answer);
                       response := Some answer |}).
  { subst out. unfold handler, run, waterfall. unfold bind at 1.
    now rewrite (CacheLookup_hit w o H). }
  rewrite E. simpl. repeat split. now rewrite <- !app_assoc.
Qed.

Lemma OriginFetch_emits (w : World) :
  trace (fst (OriginFetch svc env path w)) = trace w ++ [originGetEvent].
Proof.
  unfold OriginFetch, download. unfold handle. fold originKey.
  rewrite s3_getObject_emits.
  destruct (snd (s3_getObject svc (BUCKET_ORIGINAL env) originKey w))
    as [e|o]; [reflexivity|].
  simpl. destruct (truthy (Metadata_deleted o)); reflexivity.
Qed.

Lemma from_OriginFetch_trace (w : World) :
  exists rest,
    trace (final (run (waterfall_from_OriginFetch svc env path) w))
    = trace w ++ originGetEvent :: rest.
Proof.
  unfold run, waterfall_from_OriginFetch. unfold bind at 1.
  pose proof (OriginFetch_emits w) as T.
  destruct (OriginFetch svc env path w) as [w1 [e|original]]; simpl in T.
  - destruct (respond_appends (inl e) w1) as [evs H].
    destruct (respond (inl e) w1) as [w2 resp]. simpl in *.
    exists evs. now rewrite H, T, <- app_assoc.
  - set (k := bind (ValidateResize svc env path original) _).
    assert (K : appends k).
    { unfold k. repeat (apply appends_bind; intros);
        auto using appends_ValidateResize, appends_Resize, appends_CacheStore. }
    destruct (K w1) as [evs1 H1]. destruct (k w1) as [w2 r]. simpl in H1.
    destruct (respond_appends r w2) as [evs2 H2].
    destruct (respond r w2) as [w3 resp]. simpl in *.
    exists (evs1 ++ evs2). now rewrite H2, H1, T, <- !app_assoc.
Qed.

(** C10. Whatever error the cache-bucket get calls back with, the
    lookup counts as a miss: the handler goes on with the origin get,
    and its whole outcome is the outcome of the tasks from OriginFetch
    on, in which the error plays no part, so that no run ends on a
    failure of the cache read. *)
Theorem cache_error_is_miss (w : World) (e : Error) :
  cache_get w = inl e ->
  handler svc env path w
  = run (waterfall_from_OriginFetch svc env path) (emit cacheGetEvent w)
  /\ (exists rest,
        trace (final (handler svc env path w))
        = trace w ++ cacheGetEvent :: originGetEvent :: rest).
Proof.
  intros H.
  assert (E : handler svc env path w
              = run (waterfall_from_OriginFetch svc env path)
                  (emit cacheGetEvent w)).
  { unfold handler, run, waterfall, waterfall_from_OriginFetch.
    unfold bind at 1. now rewrite (CacheLookup_miss w e H). }
  split; [exact E|]. rewrite E.
  destruct (from_OriginFetch_trace (emit cacheGetEvent w)) as [rest T].
  exists rest. rewrite T. simpl. now rewrite <- app_assoc.
Qed.

(** C6. When the cache lookup has missed, the origin get succeeds and
    the object's metadata carries a true [deleted], the run ends with
    the Deleted exception and without an answer; it makes no call after
    the two gets, so nothing is put and the stored objects are
    unchanged. *)
Theorem origin_deleted (w : World) (e : Error) (o : S3Object) :
  cache_get w = inl e ->
  origin_get w = inr o ->
  truthy (Metadata_deleted o) = true ->
  let out := handler svc env path w in
  result out = inl new_DeletedException
  /\ response out = None
  /\ trace (final out)
     = trace w ++ [cacheGetEvent; originGetEvent;
                   ConsoleLog (Str "catch exception")]
  /\ s3 (final out) = s3 w.
Proof.
  intros Hc Ho Hd out.
  assert (E : out = {| final := emit (ConsoleLog (Str "catch exception"))
                                  (emit originGetEvent (emit cacheGetEvent w));
                       result := inl new_DeletedException;
                       response := None |}).
  { subst out. unfold handler, run, waterfall. unfold bind at 1.
    rewrite (CacheLookup_miss w e Hc). unfold bind at 1.
    now rewrite (OriginFetch_found w o Ho), Hd. }
  rewrite E. simpl. repeat split. now rewrite <- !app_assoc.
Qed.

(** C5, as the code has it. When the style token gives an invalid
    instance, the cache lookup misses, the origin get succeeds without
    a true [deleted] and the cache put succeeds, the handler stores the
    original bytes under the cache key [filename + '_full'] (after the
    configured prefix) and answers 200 with the original bytes in
    base64 under the original content type. *)
Theorem invalid_style_passes_through (w : World) (e : Error) (o : S3Object) :
  ResizeStyle.isValid (resizeStyle path) = false ->
  cache_get w = inl e ->
  origin_get w = inr o ->
  truthy (Metadata_deleted o) = false ->
  cache_put_ok w = true ->
  let out := handler svc env path w in
  let answer :=
    {| statusCode := 200;
       headers := {[ "Content-Type" := ContentType o ]};
       isBase64Encoded := true;
       body := Buffer.base64 (Body o) |} in
  let key := KEY_CACHE env +:+ filename path +:+ "_full" in
  response out = Some answer
  /\ trace (final out)
     = trace w ++ [cacheGetEvent; originGetEvent;
                   S3PutObject (BUCKET_CACHE env) key (Body o) (ContentType o);
                   ConsoleLog (Str "catch exception");
                   ConsoleLog (Num 200); LambdaCallback answer]
  /\ s3 (final out)
     = <[(BUCKET_CACHE env, key) := cached (Body o) (ContentType o)]> (s3 w).
Proof.
  intros Hv Hc Ho Hd Hp out answer key.
  assert (K : cacheKey = key).
  { unfold cacheKey, cachePath, ResizeStyle.getIndexName.
    fold (resizeStyle path). now rewrite Hv. }
  set (w2 := emit originGetEvent (emit cacheGetEvent w)).
  set (put := S3PutObject (BUCKET_CACHE env) key (Body o) (ContentType o)).
  assert (E : out =
    {| final := emit (LambdaCallback answer)
                  (emit (ConsoleLog (Num 200))
                     (emit (ConsoleLog (Str "catch exception"))
                        (store (BUCKET_CACHE env) key
                           (cached (Body o) (ContentType o))
                           (emit put w2))));
       result := inl (CouldNotResizeException answer);
       response := Some answer |}).
  { subst out. unfold handler, run, waterfall. unfold bind at 1.
    rewrite (CacheLookup_miss w e Hc). unfold bind at 1.
    rewrite (OriginFetch_found w o Ho), Hd. unfold bind at 1.
    unfold ValidateResize. rewrite Hv.
    unfold handle, upload, s3_putObject. fold cacheKey.
    unfold cache_put_ok in Hp. fold w2 in Hp |- *.
    cbv beta iota delta [negb].
    destruct (s3_put_error svc (trace w2) (BUCKET_CACHE env) cacheKey);
      [discriminate|].
    rewrite K. reflexivity. }
  rewrite E. simpl. repeat split. now rewrite <- !app_assoc.
Qed.

End PipelineClaims.

(** ** The pipeline on concrete requests *)

Section ScenarioClaims.
Import JS Lambda Scenario.
Local Open Scope list_scope.

Lemma cache_hit_witness :
  cache_get reliable config "cat/FIT.200x100" warm = inr thumbnail
  /\ (let out := handler reliable config "cat/FIT.200x100" warm in
      let answer :=
        {| statusCode := 200;
           headers := {[ "Content-Type" := ContentType thumbnail ]};
           isBase64Encoded := true;
           body := Buffer.base64 (Body thumbnail) |} in
      response out = Some answer
      /\ result out = inl (ExistCacheException answer)
      /\ trace (final out)
         = trace warm
           ++ [cacheGetEvent config "cat/FIT.200x100";
               ConsoleLog (Str "catch exception");
               ConsoleLog (Num 200); LambdaCallback answer]
      /\ s3 (final out) = s3 warm).
Proof.
  split; [reflexivity|].
  exact (cache_hit reliable config "cat/FIT.200x100" warm thumbnail eq_refl).
Defined.

Lemma cache_error_is_miss_witness :
  cache_get get_refused config "cat/fit.200x100" warm
  = inl (MkError "AccessDenied")
  /\ handler get_refused config "cat/fit.200x100" warm
     = run (waterfall_from_OriginFetch get_refused config "cat/fit.200x100")
         (emit (cacheGetEvent config "cat/fit.200x100") warm)
  /\ (exists rest,
        trace (final (handler get_refused config "cat/fit.200x100" warm))
        = trace warm
          ++ cacheGetEvent config "cat/fit.200x100"
             :: originGetEvent config "cat/fit.200x100" :: rest).
Proof.
  split; [reflexivity|].
  exact (cache_error_is_miss get_refused config "cat/fit.200x100" warm
           (MkError "AccessDenied") eq_refl).
Defined.

Lemma origin_deleted_witness :
  cache_get reliable config "cat/fit.200x100" withdrawn
  = inl (MkError "NoSuchKey")
  /\ origin_get reliable config "cat/fit.200x100" withdrawn = inr removed_cat
  /\ truthy (Metadata_deleted removed_cat) = true
  /\ (let out := handler reliable config "cat/fit.200x100" withdrawn in
      result out = inl new_DeletedException
      /\ response out = None
      /\ trace (final out)
         = trace withdrawn
           ++ [cacheGetEvent config "cat/fit.200x100";
               originGetEvent config "cat/fit.200x100";
               ConsoleLog (Str "catch exception")]
      /\ s3 (final out) = s3 withdrawn).
Proof.
  split; [reflexivity|]. split; [reflexivity|]. split; [reflexivity|].
  exact (origin_deleted reliable config "cat/fit.200x100" withdrawn
           (MkError "NoSuchKey") removed_cat eq_refl eq_refl eq_refl).
Defined.

Lemma invalid_style_passes_through_witness :
  ResizeStyle.isValid (resizeStyle "cat") = false
  /\ cache_get reliable config "cat" cold = inl (MkError "NoSuchKey")
  /\ origin_get reliable config "cat" cold = inr cat
  /\ truthy (Metadata_deleted cat) = false
  /\ cache_put_ok reliable config "cat" cold = true
  /\ (let out := handler reliable config "cat" cold in
      let answer :=
        {| statusCode := 200;
           headers := {[ "Content-Type" := ContentType cat ]};
           isBase64Encoded := true;
           body := Buffer.base64 (Body cat) |} in
      let key := KEY_CACHE config +:+ filename "cat" +:+ "_full" in
      response out = Some answer
      /\ trace (final out)
         = trace cold
           ++ [cacheGetEvent config "cat"; originGetEvent config "cat";
               S3PutObject (BUCKET_CACHE config) key (Body cat)
                 (ContentType cat);
               ConsoleLog (Str "catch exception");
               ConsoleLog (Num 200); LambdaCallback answer]
      /\ s3 (final out)
         = <[(BUCKET_CACHE config, key) := cached (Body cat) (ContentType cat)]>
             (s3 cold)).
Proof.
  do 5 (split; [reflexivity|]).
  exact (invalid_style_passes_through reliable config "cat" cold
           (MkError "NoSuchKey") cat eq_refl eq_refl eq_refl eq_refl eq_refl).
Defined.

(** C5 fails when the cache put is refused: the token is absent, the
    cache lookup misses and the origin get succeeds without [deleted],
    yet the run ends with the UploadFailed exception, answers nothing
    and stores nothing. *)
Lemma invalid_style_put_refused :
  let out := handler put_refused config "cat" cold in
  ResizeStyle.isValid (resizeStyle "cat") = false
  /\ cache_get put_refused config "cat" cold = inl (MkError "NoSuchKey")
  /\ origin_get put_refused config "cat" cold = inr cat
  /\ truthy (Metadata_deleted cat) = false
  /\ result out = inl new_UploadFailedException
  /\ response out = None
  /\ trace (final out)
     = [S3GetObject "cache" "c/cat_full"; S3GetObject "orig" "o/cat";
        S3PutObject "cache" "c/cat_full" (Body cat) "image/png";
        ConsoleLog (Str "catch exception");
        ConsoleLog (Str "Upload Failed Exception")]
  /\ s3 (final out) = s3 cold.
Proof. repeat split. Qed.

(** An absent, an empty and a malformed token all give an invalid
    instance. *)
Example tokens_without_style :
  ResizeStyle.isValid (resizeStyle "cat") = false
  /\ ResizeStyle.isValid (resizeStyle "cat/") = false
  /\ ResizeStyle.isValid (resizeStyle "cat/fit") = false
  /\ ResizeStyle.isValid (resizeStyle "cat/crop.10x10") = false.
Proof. repeat split. Qed.

End ScenarioClaims.

(** * Further properties *)

(** ** More on the parser *)

Section ParserExtras.
Import JS RegExp ResizeStyle.











Lemma canvas_not_bare_x : test re_canvas (Str "x") = false.
Proof. reflexivity. Qed.

(** X1. A valid instance is keep-aspect exactly when one side of the
    size segment is missing; a side written [0] counts as present; and
    the two sides are never both missing. *)
Theorem keep_aspect_iff_side_missing (t : string) :
  let rs := new (Str t) in
  isValid rs = true ->
  exists w h,
    index (split "." t) 1 = Str (w +:+ "x" +:+ h)
    /\ split "x" (w +:+ "x" +:+ h) = [w; h]
    /\ isKeepAspect rs = (String.eqb w "" || String.eqb h "")
    /\ (w <> "" \/ h <> "").
Proof.
  intros rs V. subst rs.
  destruct (new_valid_inv _ V)
    as (p & c & w & h & rest & Ep & Hs & _ & Hseg & Hw & Hh & _ & _ & E).
  injection Ep as <-. exists w, h. rewrite Hs, E.
  split; [reflexivity|]. split; [now apply split_canvas|]. split.
  - unfold isKeepAspect, parsed. simpl canvas_w. simpl canvas_h.
    destruct w, h; reflexivity.
  - destruct w; [|left; discriminate]. destruct h; [|right; discriminate].
    exfalso. change ("" +:+ "x" +:+ "") with "x" in Hseg.
    rewrite canvas_not_bare_x in Hseg. discriminate.
Qed.


Lemma index_name_invalid (rs : ResizeStyle.t) :
  isValid rs = false -> getIndexName rs = "full".
Proof. intros V. unfold getIndexName. now rewrite V. Qed.



(** X9. For a valid instance whose cover is not exactly [fit] (so [fill]
    in any casing, and [fit] in any other casing than lower case)
    [getResizeData] constrains the shorter source side: the width of a
    portrait source, the height of any other, to the smaller of source
    and target. *)
Theorem other_cover_constrains_shorter_side (t : string) (ow oh : Z) :
  let rs := new (Str t) in
  isValid rs = true ->
  cover rs <> Str "fit" ->
  exists tw th,
    ToNumber (getWidth rs) = Some tw /\ ToNumber (getHeight rs) = Some th
    /\ if ow <? oh
       then exists v, getResizeData rs (Num ow) (Num oh) = (v, Num 0)
                      /\ ToNumber v = Some (Z.min ow tw)
       else exists v, getResizeData rs (Num ow) (Num oh) = (Num 0, v)
                      /\ ToNumber v = Some (Z.min oh th).
Proof.
  intros rs V C. subst rs.
  destruct (valid_target_numbers _ V) as (tw & th & Hw & Hh & _ & _).
  exists tw, th. split; [exact Hw|]. split; [exact Hh|].
  assert (N : strict_eq (cover (new (Str t))) (Str "fit") = false).
  { destruct (cover (new (Str t))) as [| | |c]; try reflexivity.
    simpl. destruct (String.eqb_spec c "fit") as [->|]; [now destruct C|].
    reflexivity. }
  unfold getResizeData. rewrite N.
  change (lt (Num ow) (Num oh)) with (ow <? oh).
  destruct (ow <? oh); eexists; (split; [reflexivity|]);
    now apply constrained_min.
Qed.

Lemma other_cover_constrains_shorter_side_witness :
  exists tw th,
    ToNumber (getWidth (new (Str "FILL.200x100"))) = Some tw
    /\ ToNumber (getHeight (new (Str "FILL.200x100"))) = Some th
    /\ exists v, getResizeData (new (Str "FILL.200x100")) (Num 800) (Num 400)
                 = (Num 0, v)
                 /\ ToNumber v = Some (Z.min 400 th).
Proof.
  apply (other_cover_constrains_shorter_side "FILL.200x100" 800 400 eq_refl).
  discriminate.
Defined.

Lemma fit_exact_constrains_longer_side_witness :
  exists tw th,
    ToNumber (getWidth (new (Str "fit.200x100"))) = Some tw
    /\ ToNumber (getHeight (new (Str "fit.200x100"))) = Some th
    /\ exists v, getResizeData (new (Str "fit.200x100")) (Num 400) (Num 800)
                 = (Num 0, v)
                 /\ ToNumber v = Some (Z.min 800 th).
Proof.
  exact (fit_exact_constrains_longer_side "fit.200x100" 400 800
           eq_refl eq_refl).
Defined.


(** The colour test, as a computation. *)
Lemma lang_hex (c : ascii) : is_hex c = true -> lang false hex (String c "").
Proof.
  unfold is_hex, hex. intros [H|H]%orb_true_iff;
    [apply lang_alt_l | apply lang_alt_r]; constructor;
    now rewrite range_match_exact.
Qed.

Lemma color_accepts (b : string) :
  all_hex b = true ->
  String.length b = 3%nat \/ String.length b = 6%nat ->
  test re_color (Str b) = true.
Proof.
  intros H L. unfold test. simpl. apply matches_lang.
  destruct L as [L|L].
  - destruct b as [|c1 [|c2 [|c3 [|]]]]; try discriminate.
    simpl in H. repeat (apply andb_true_iff in H as [?%lang_hex H]).
    apply lang_alt_l.
    change (String c1 (String c2 (String c3 "")))
      with (String c1 "" +:+ String c2 "" +:+ String c3 "" +:+ "").
    repeat (apply lang_cat; [assumption|]). constructor.
  - destruct b as [|c1 [|c2 [|c3 [|c4 [|c5 [|c6 [|]]]]]]]; try discriminate.
    simpl in H. repeat (apply andb_true_iff in H as [?%lang_hex H]).
    apply lang_alt_r.
    change (String c1 (String c2 (String c3 (String c4 (String c5 (String c6 ""))))))
      with (String c1 "" +:+ String c2 "" +:+ String c3 "" +:+ String c4 ""
            +:+ String c5 "" +:+ String c6 "" +:+ "").
    repeat (apply lang_cat; [assumption|]). constructor.
Qed.

Lemma color_test_spec (s : string) : test re_color (Str s) = is_color s.
Proof.
  unfold is_color. destruct (test re_color (Str s)) eqn:T.
  - destruct (color_shape s T) as [H [L|L]]; rewrite H, L; reflexivity.
  - destruct (all_hex s) eqn:H; [|reflexivity]. simpl.
    destruct (Nat.eqb_spec (String.length s) 3) as [L|_].
    { rewrite (color_accepts s H (or_introl L)) in T. discriminate. }
    destruct (Nat.eqb_spec (String.length s) 6) as [L|_]; [|reflexivity].
    rewrite (color_accepts s H (or_intror L)) in T. discriminate.
Qed.

(** X5. The background of a valid instance is the fourth segment when
    that is three or six lower-case hexadecimal digits, and [none] in
    every other case: absent, another length, upper-case digits. *)
Theorem background_spec (t : string) :
  let rs := new (Str t) in
  isValid rs = true ->
  background rs
  = match index (split "." t) 3 with
    | Str s => if is_color s then Str s else Str "none"
    | _ => Str "none"
    end.
Proof.
  intros rs V. subst rs.
  destruct (new_valid_inv _ V)
    as (p & c & w & h & rest & Ep & Hs & _ & _ & _ & _ & _ & _ & E).
  injection Ep as <-. rewrite E, Hs. unfold parsed. simpl background.
  change (index (c :: _ :: rest) 3) with (index rest 1).
  unfold chosen_background.
  destruct (index rest 1) as [| | |s] eqn:Ei;
    try (unfold index in Ei; destruct (nth_error rest 1); discriminate).
  - reflexivity.
  - now rewrite color_test_spec.
Qed.

Lemma background_spec_witness :
  background (new (Str "fit.200x100.png.0AF")) = Str "none"
  /\ background (new (Str "fit.200x100.png.0af")) = Str "0af"
  /\ background (new (Str "fit.200x100.png.0af0")) = Str "none"
  /\ background (new (Str "fit.200x100.png")) = Str "none".
Proof.
  split; [exact (background_spec "fit.200x100.png.0AF" eq_refl)|].
  split; [exact (background_spec "fit.200x100.png.0af" eq_refl)|].
  split; [exact (background_spec "fit.200x100.png.0af0" eq_refl)|].
  exact (background_spec "fit.200x100.png" eq_refl).
Defined.

(** X6. [getColor()] of a valid instance is [none], or [#] followed by
    the three or six lower-case hexadecimal digits of the background. *)
Theorem color_is_none_or_hex (t : string) :
  let rs := new (Str t) in
  isValid rs = true ->
  getColor rs = "none"
  \/ exists b, getColor rs = "#" +:+ b /\ background rs = Str b
               /\ all_hex b = true
               /\ (String.length b = 3%nat \/ String.length b = 6%nat).
Proof.
  intros rs V. subst rs.
  destruct (new_valid_inv _ V)
    as (p & c & w & h & rest & Ep & Hs & _ & _ & _ & _ & _ & _ & E).
  rewrite E. unfold getColor, parsed. simpl background.
  unfold chosen_background.
  destruct (test re_color (index rest 1)) eqn:T; [|left; reflexivity].
  destruct (index rest 1) as [| | |s] eqn:Ei; try discriminate.
  { unfold index in Ei. destruct (nth_error rest 1); discriminate. }
  { unfold index in Ei. destruct (nth_error rest 1); discriminate. }
  destruct (color_shape s T) as [H L]. right. exists s.
  change (strict_eq (Str "none") (Str s)) with (String.eqb "none" s).
  destruct (String.eqb_spec "none" s) as [<-|]; [discriminate|].
  repeat split; auto.
Qed.

Lemma color_is_none_or_hex_witness :
  getColor (new (Str "fill.20x30..FFF")) = "none"
  \/ exists b, getColor (new (Str "fill.20x30..FFF")) = "#" +:+ b
               /\ background (new (Str "fill.20x30..FFF")) = Str b
               /\ all_hex b = true
               /\ (String.length b = 3%nat \/ String.length b = 6%nat).
Proof. exact (color_is_none_or_hex "fill.20x30..FFF" eq_refl). Defined.

(** X7. [getContentType()] of a valid instance is [image/jpeg] when the
    format is exactly [jpg] (written so, absent or unrecognised);
    otherwise it is [image/] followed by the format segment as written,
    a casing of [jpg], [png] or [gif] or the empty string. *)
Theorem content_type_spec (t : string) :
  let rs := new (Str t) in
  isValid rs = true ->
  (getFormat rs = Str "jpg" /\ getContentType rs = "image/jpeg")
  \/ exists f,
       getFormat rs = Str f /\ f <> "jpg"
       /\ index (split "." t) 2 = Str f
       /\ getContentType rs = "image/" +:+ f
       /\ (toLowerCase f = "jpg" \/ toLowerCase f = "png"
           \/ toLowerCase f = "gif" \/ f = "").
Proof.
  intros rs V. subst rs.
  destruct (new_valid_inv _ V)
    as (p & c & w & h & rest & Ep & Hs & _ & _ & _ & _ & _ & _ & E).
  injection Ep as <-.
  rewrite E, Hs. unfold getFormat, getContentType, parsed. simpl format.
  change (index (c :: _ :: rest) 2) with (index rest 0).
  unfold chosen_format.
  destruct (test re_format (index rest 0)) eqn:T; [|left; split; reflexivity].
  destruct (index rest 0) as [| | |f] eqn:Ei; try discriminate.
  { unfold index in Ei. destruct (nth_error rest 0); discriminate. }
  { unfold index in Ei. destruct (nth_error rest 0); discriminate. }
  change (strict_eq (Str "jpg") (Str f)) with (String.eqb "jpg" f).
  destruct (String.eqb_spec "jpg" f) as [<-|N];
    [left; split; reflexivity|].
  right. exists f. repeat split; auto. now apply format_shape.
Qed.

Lemma content_type_spec_witness :
  (getFormat (new (Str "fit.20x30.JPG")) = Str "jpg"
   /\ getContentType (new (Str "fit.20x30.JPG")) = "image/jpeg")
  \/ exists f,
       getFormat (new (Str "fit.20x30.JPG")) = Str f /\ f <> "jpg"
       /\ index (split "." "fit.20x30.JPG") 2 = Str f
       /\ getContentType (new (Str "fit.20x30.JPG")) = "image/" +:+ f
       /\ (toLowerCase f = "jpg" \/ toLowerCase f = "png"
           \/ toLowerCase f = "gif" \/ f = "").
Proof. exact (content_type_spec "fit.20x30.JPG" eq_refl). Defined.


Lemma index_firstn (arr : list string) (n i : nat) :
  (i < n)%nat -> index (firstn n arr) i = index arr i.
Proof.
  intros H. unfold index.
  now rewrite (nth_error_firstn n arr i), (proj2 (Nat.ltb_lt i n) H).
Qed.

(** The constructor reads the first four segments and nothing else. *)
Lemma new_reads_four (t1 t2 : string) :
  (forall i, (i < 4)%nat ->
     index (split "." t1) i = index (split "." t2) i) ->
  new (Str t1) = new (Str t2).
Proof.
  intros H. unfold new, separator.
  rewrite (H 0%nat), (H 1%nat), (H 2%nat), (H 3%nat) by lia. reflexivity.
Qed.

(** X4. Segments after the fourth are ignored: two tokens with the same
    first four segments give the same instance. *)
Theorem trailing_segments_ignored (t1 t2 : string) :
  firstn 4 (split "." t1) = firstn 4 (split "." t2) ->
  new (Str t1) = new (Str t2).
Proof.
  intros H. apply new_reads_four. intros i Hi.
  now rewrite <- (index_firstn (split "." t1) 4 i Hi), H, index_firstn.
Qed.

Lemma trailing_segments_ignored_witness :
  new (Str "fill.20x30.png.0af.extra.more") = new (Str "fill.20x30.png.0af").
Proof.
  exact (trailing_segments_ignored "fill.20x30.png.0af.extra.more"
           "fill.20x30.png.0af" eq_refl).
Defined.

(** X3. Validity, keep-aspect and the target size are decided by the
    first two segments alone: whatever stands in the format and
    background segments never invalidates a token. *)
Theorem validity_from_two_segments (t1 t2 : string) :
  index (split "." t1) 0 = index (split "." t2) 0 ->
  index (split "." t1) 1 = index (split "." t2) 1 ->
  isValid (new (Str t1)) = isValid (new (Str t2))
  /\ isKeepAspect (new (Str t1)) = isKeepAspect (new (Str t2))
  /\ getWidth (new (Str t1)) = getWidth (new (Str t2))
  /\ getHeight (new (Str t1)) = getHeight (new (Str t2)).
Proof.
  intros H0 H1. unfold new, separator. rewrite H0, H1.
  destruct (test re_cover _); [|repeat split].
  destruct (test re_canvas _); [|repeat split].
  cbv zeta. simpl negb. cbv iota.
  match goal with |- context [if ?b then _ else _] => destruct b end;
    [repeat split|].
  destruct (test re_format (index (split "." t1) 2)),
    (test re_format (index (split "." t2) 2)),
    (test re_color (index (split "." t1) 3)),
    (test re_color (index (split "." t2) 3)); repeat split.
Qed.

Lemma validity_from_two_segments_witness :
  isValid (new (Str "fit.20x.bmp.zzz")) = isValid (new (Str "fit.20x"))
  /\ isKeepAspect (new (Str "fit.20x.bmp.zzz")) = isKeepAspect (new (Str "fit.20x"))
  /\ getWidth (new (Str "fit.20x.bmp.zzz")) = getWidth (new (Str "fit.20x"))
  /\ getHeight (new (Str "fit.20x.bmp.zzz")) = getHeight (new (Str "fit.20x")).
Proof.
  exact (validity_from_two_segments "fit.20x.bmp.zzz" "fit.20x"
           eq_refl eq_refl).
Defined.

End ParserExtras.

Section PathExtras.
Import JS Lambda.

(** X10. The handler reads the file name and the style token from the
    first two parts of the path and ignores what follows a second
    slash; without a slash the token is empty and the cache path ends
    in [_full]. *)
Theorem path_reads_two_segments (f tok more : string) :
  free_of "/" f = true -> free_of "/" tok = true ->
  filename (f +:+ "/" +:+ tok +:+ "/" +:+ more) = f
  /\ params (f +:+ "/" +:+ tok +:+ "/" +:+ more) = Str tok
  /\ cachePath (f +:+ "/" +:+ tok +:+ "/" +:+ more)
     = f +:+ "_" +:+ ResizeStyle.getIndexName (ResizeStyle.new (Str tok))
  /\ cachePath (f +:+ "/" +:+ tok) = cachePath (f +:+ "/" +:+ tok +:+ "/" +:+ more)
  /\ cachePath f = f +:+ "_full".
Proof.
  intros Hf Ht.
  assert (S3 : split "/" (f +:+ "/" +:+ tok +:+ "/" +:+ more)
               = f :: tok :: split "/" more).
  { change (f +:+ "/" +:+ tok +:+ "/" +:+ more)
      with (f +:+ String "/" (tok +:+ String "/" more)).
    now rewrite (split_app "/" f _ Hf), (split_app "/" tok _ Ht). }
  assert (S2 : split "/" (f +:+ "/" +:+ tok) = [f; tok]).
  { change (f +:+ "/" +:+ tok) with (f +:+ String "/" tok).
    now rewrite (split_app "/" f _ Hf), (split_free "/" tok Ht). }
  assert (S1 : split "/" f = [f]) by now apply split_free.
  unfold cachePath, resizeStyle, params, filename, request.
  rewrite S3, S2, S1.
  change (index (f :: _) 0) with (Str f).
  change (index (f :: tok :: _) 1) with (Str tok).
  change (index [f] 1) with Undefined.
  rewrite or_empty_default. repeat split.
Qed.

Lemma path_reads_two_segments_witness :
  filename "cat.png/fit.20x30/junk/more" = "cat.png"
  /\ params "cat.png/fit.20x30/junk/more" = Str "fit.20x30"
  /\ cachePath "cat.png/fit.20x30/junk/more"
     = "cat.png" +:+ "_"
       +:+ ResizeStyle.getIndexName (ResizeStyle.new (Str "fit.20x30"))
  /\ cachePath "cat.png/fit.20x30" = cachePath "cat.png/fit.20x30/junk/more"
  /\ cachePath "cat.png" = "cat.png" +:+ "_full".
Proof.
  exact (path_reads_two_segments "cat.png" "fit.20x30" "junk/more"
           eq_refl eq_refl).
Defined.

End PathExtras.

(** ** Every path through the handler *)

Ltac unfold_handler :=
  unfold Lambda.handler, Lambda.run, Lambda.waterfall, Lambda.CacheLookup,
    Lambda.OriginFetch, Lambda.ValidateResize, Lambda.Resize,
    Lambda.CacheStore, Lambda.resize, Lambda.convert, Lambda.download,
    Lambda.upload, Lambda.bind, Lambda.handle, Lambda.s3_getObject,
    Lambda.s3_putObject, Lambda.im_identify_call, Lambda.im_resize_call,
    Lambda.im_convert_call, Lambda.fs_writeFile_call, Lambda.fs_readFile_call,
    Lambda.ret, Lambda.fail, Lambda.respond, Lambda.lambda_callback,
    Lambda.new_ExistCacheException, Lambda.new_NotFoundException,
    Lambda.new_CouldNotResizeException, Lambda.new_UploadFailedException,
    Lambda.new_ResizeFailedException, Lambda.new_ConvertFailedException,
    Lambda.new_DeletedException, Lambda.new_Magicked, cached.

(** Split on every answer of a collaborator and every test of the
    style, innermost first. *)
Ltac split_paths :=
  repeat match goal with
  | |- context [match ?x with _ => _ end] =>
      lazymatch x with
      | context [match _ with _ => _ end] => fail
      | _ => destruct x eqn:?
      end
  | |- context [if ?x then _ else _] =>
      lazymatch x with
      | context [match _ with _ => _ end] => fail
      | _ => destruct x eqn:?
      end
  end.

Section PipelineExtras.
Import JS Lambda.
Local Open Scope list_scope.

Variable svc : Services.
Variable env : Env.
Variable path : string.

Local Abbreviation cacheKey := (cacheKey env path).
Local Abbreviation originKey := (originKey env path).
Local Abbreviation cacheGetEvent := (cacheGetEvent env path).
Local Abbreviation originGetEvent := (originGetEvent env path).
Local Abbreviation cache_get := (cache_get svc env path).
Local Abbreviation origin_get := (origin_get svc env path).
Local Abbreviation after_gets := (after_gets env path).

(** X11. A run either leaves the stored objects as they were, and then
    answers nothing or answers from the cache, or it replaces exactly
    the cache object of the request, and then what it answers is what
    it has stored: same bytes, same content type. *)
Theorem store_discipline (w : World) :
  let out := handler svc env path w in
  (s3 (final out) = s3 w
   /\ (response out = None
       \/ exists p, result out = inl (ExistCacheException p)
                    /\ response out = Some p))
  \/ (exists d c,
        s3 (final out)
        = <[(BUCKET_CACHE env, cacheKey) := cached d c]> (s3 w)
        /\ response out = Some (fill_Payload d c)
        /\ (result out = inl (new_CouldNotResizeException d c)
            \/ result out = inr (new_Magicked d c))).
Proof.
  intros out. subst out. unfold_handler. fold cacheKey.
  split_paths; simpl; eauto 10.
Qed.

(** X12. A run that ends with NotFound, Deleted, UploadFailed,
    ResizeFailed or ConvertFailed never calls the Lambda callback;
    every other run calls it exactly once, as its last action, with
    status 200, a base64 body and one [Content-Type] header. *)
Theorem answers_once (w : World) :
  let out := handler svc env path w in
  exists evs,
    trace (final out) = trace w ++ evs
    /\ ((response out = None /\ failure_kind (result out) = true
         /\ List.filter is_callback evs = [])
        \/ (exists d c,
              response out = Some (fill_Payload d c)
              /\ failure_kind (result out) = false
              /\ List.filter is_callback evs = [LambdaCallback (fill_Payload d c)]
              /\ last evs = Some (LambdaCallback (fill_Payload d c)))).
Proof.
  intros out. subst out. unfold_handler.
  split_paths; simpl; rewrite <- ?app_assoc; simpl;
    (eexists; split; [reflexivity|]); simpl; eauto 10.
Qed.

(** X13. Every run starts with the get of the request's cache object;
    after it the only S3 calls are at most one get, of the original,
    and at most one put, to the cache bucket under the request's cache
    key. *)
Theorem s3_calls (w : World) :
  let out := handler svc env path w in
  exists evs,
    trace (final out) = trace w ++ cacheGetEvent :: evs
    /\ (List.filter is_s3_get evs = [] \/ List.filter is_s3_get evs = [originGetEvent])
    /\ (List.filter is_s3_put evs = []
        \/ exists d c,
             List.filter is_s3_put evs
             = [S3PutObject (BUCKET_CACHE env) cacheKey d c]).
Proof.
  intros out. subst out. unfold_handler. fold cacheKey.
  split_paths; simpl; rewrite <- ?app_assoc; simpl;
    (eexists; split; [reflexivity|]); simpl; eauto 10.
Qed.


Lemma OriginFetch_missing (w : World) (e : Error) :
  origin_get w = inl e ->
  OriginFetch svc env path (emit cacheGetEvent w)
  = (after_gets w, inl new_NotFoundException).
Proof.
  unfold origin_get, OriginFetch, download, handle. intros H.
  fold originKey. rewrite s3_getObject_emits, H. reflexivity.
Qed.

(** X14. When the cache lookup misses and the origin get fails, with
    any error, the run ends with the NotFound exception: it logs the
    message, answers nothing, makes no further call and stores
    nothing. *)
Theorem origin_missing (w : World) (e e' : Error) :
  cache_get w = inl e ->
  origin_get w = inl e' ->
  let out := handler svc env path w in
  result out = inl new_NotFoundException
  /\ response out = None
  /\ trace (final out)
     = trace w ++ [cacheGetEvent; originGetEvent;
                   ConsoleLog (Str "catch exception");
                   ConsoleLog (Str "Not Found Exception")]
  /\ s3 (final out) = s3 w.
Proof.
  intros Hc Ho out.
  assert (E : out = {| final := emit (ConsoleLog (Str "Not Found Exception"))
                                  (emit (ConsoleLog (Str "catch exception"))
                                     (after_gets w));
                       result := inl new_NotFoundException;
                       response := None |}).
  { subst out. unfold handler, run, waterfall. unfold bind at 1.
    rewrite (CacheLookup_miss svc env path w e Hc). unfold bind at 1.
    now rewrite (OriginFetch_missing w e' Ho). }
  rewrite E. simpl. repeat split. now rewrite <- !app_assoc.
Qed.

(** The run up to the resize step, for a valid style. *)
Lemma run_to_Resize (w : World) (e : Error) (o : S3Object) :
  ResizeStyle.isValid (resizeStyle path) = true ->
  cache_get w = inl e ->
  origin_get w = inr o ->
  truthy (Metadata_deleted o) = false ->
  handler svc env path w
  = run (fun w2 =>
           bind (Resize svc env path (Body o, ContentType o))
             (CacheStore svc env path) w2)
      (after_gets w).
Proof.
  intros Hv Hc Ho Hd. unfold handler, run, waterfall. unfold bind at 1.
  rewrite (CacheLookup_miss svc env path w e Hc). unfold bind at 1.
  rewrite (OriginFetch_found svc env path w o Ho), Hd. unfold bind at 1.
  unfold ValidateResize. rewrite Hv. reflexivity.
Qed.

(** X15. For a valid keep-aspect style, after a cache miss and a
    successful origin get, a successful [im.resize] with the style's
    width, height and format followed by a successful put answers 200
    with the resized bytes under the style's content type and stores
    them under the cache key; no identify, convert or file call is
    made. *)
Theorem keep_aspect_fresh_result (w : World) (e : Error) (o : S3Object)
  (stdout : list byte) :
  let rs := resizeStyle path in
  let call := ImResize (Body o) (ResizeStyle.getWidth rs)
                (ResizeStyle.getHeight rs) (ResizeStyle.getFormat rs) in
  let put := S3PutObject (BUCKET_CACHE env) cacheKey stdout
               (ResizeStyle.getContentType rs) in
  ResizeStyle.isValid rs = true ->
  ResizeStyle.isKeepAspect rs = true ->
  cache_get w = inl e ->
  origin_get w = inr o ->
  truthy (Metadata_deleted o) = false ->
  im_resize svc (trace (after_gets w)) (Body o) (ResizeStyle.getWidth rs)
    (ResizeStyle.getHeight rs) (ResizeStyle.getFormat rs) = inr stdout ->
  s3_put_error svc (trace (emit call (after_gets w))) (BUCKET_CACHE env)
    cacheKey = None ->
  let out := handler svc env path w in
  let answer := fill_Payload stdout (ResizeStyle.getContentType rs) in
  response out = Some answer
  /\ trace (final out)
     = trace w ++ [cacheGetEvent; originGetEvent; call; put;
                   ConsoleLog (Num 200); LambdaCallback answer]
  /\ s3 (final out)
     = <[(BUCKET_CACHE env, cacheKey)
         := cached stdout (ResizeStyle.getContentType rs)]> (s3 w).
Proof.
  intros rs call put Hv Hk Hc Ho Hd Hr Hp out answer.
  assert (E : out =
    {| final := emit (LambdaCallback answer)
                  (emit (ConsoleLog (Num 200))
                     (store (BUCKET_CACHE env) cacheKey
                        (cached stdout (ResizeStyle.getContentType rs))
                        (emit put (emit call (after_gets w)))));
       result := inr (new_Magicked stdout (ResizeStyle.getContentType rs));
       response := Some answer |}).
  { subst out. rewrite (run_to_Resize w e o Hv Hc Ho Hd).
    unfold run, bind, Resize. fold rs. rewrite Hk.
    unfold resize, im_resize_call, handle. fold rs. cbv beta. rewrite Hr.
    unfold ret, CacheStore, handle, upload, s3_putObject. fold cacheKey.
    cbv beta iota. fold call. rewrite Hp. reflexivity. }
  rewrite E. simpl. repeat split. now rewrite <- !app_assoc.
Qed.


(** X16. For a valid style with both sides given, a run in which every
    call succeeds makes them in this order: identify, resize to the
    pair of [getResizeData], write the resized file, create the canvas
    of the target size and colour, composite centred, read the result,
    put; it answers 200 with the composite bytes and stores them. *)
Theorem rectangle_fresh_result (w : World) (e : Error) (o : S3Object)
  (ow oh rw rh : jsval) (resized composite : list byte) :
  let rs := resizeStyle path in
  let fmt := ResizeStyle.getFormat rs in
  let tmpResized :=
    TEMP_DIR env +:+ filename path +:+ "_" +:+ ResizeStyle.getIndexName rs in
  let tmpCanvas := tmpResized +:+ "_canvas." +:+ ToString fmt in
  let tmpComposite := tmpResized +:+ "_composite." +:+ ToString fmt in
  let canvas :=
    ["-size";
     ToString (ResizeStyle.getWidth rs) +:+ "x" +:+
     ToString (ResizeStyle.getHeight rs);
     "xc:" +:+ ResizeStyle.getColor rs; tmpCanvas] in
  let overlay :=
    [tmpCanvas; tmpResized; "-gravity"; "center"; "-composite";
     tmpComposite] in
  let w1 := emit (ImIdentify (Body o)) (after_gets w) in
  let w2 := emit (ImResize (Body o) rw rh fmt) w1 in
  let w3 := emit (FsWriteFile tmpResized resized) w2 in
  let w4 := emit (ImConvert canvas) w3 in
  let w5 := emit (ImConvert overlay) w4 in
  let w6 := emit (FsReadFile tmpComposite) w5 in
  ResizeStyle.isValid rs = true ->
  ResizeStyle.isKeepAspect rs = false ->
  cache_get w = inl e ->
  origin_get w = inr o ->
  truthy (Metadata_deleted o) = false ->
  im_identify svc (trace (after_gets w)) (Body o) = inr (ow, oh) ->
  ResizeStyle.getResizeData rs ow oh = (rw, rh) ->
  im_resize svc (trace w1) (Body o) rw rh fmt = inr resized ->
  fs_writeFile svc (trace w2) tmpResized resized = None ->
  im_convert svc (trace w3) canvas = None ->
  im_convert svc (trace w4) overlay = None ->
  fs_readFile svc (trace w5) tmpComposite = inr composite ->
  s3_put_error svc (trace w6) (BUCKET_CACHE env) cacheKey = None ->
  let out := handler svc env path w in
  let contentType := ResizeStyle.getContentType rs in
  let answer := fill_Payload composite contentType in
  response out = Some answer
  /\ trace (final out)
     = trace w ++ [cacheGetEvent; originGetEvent;
                   ImIdentify (Body o); ImResize (Body o) rw rh fmt;
                   FsWriteFile tmpResized resized;
                   ImConvert canvas; ImConvert overlay;
                   FsReadFile tmpComposite;
                   S3PutObject (BUCKET_CACHE env) cacheKey composite
                     contentType;
                   ConsoleLog (Num 200); LambdaCallback answer]
  /\ s3 (final out)
     = <[(BUCKET_CACHE env, cacheKey) := cached composite contentType]>
         (s3 w).
Proof.
  intros rs fmt tmpResized tmpCanvas tmpComposite canvas overlay
    w1 w2 w3 w4 w5 w6 Hv Hk Hc Ho Hd H1 Hsize H2 H3 H4 H5 H6 Hp
    out contentType answer.
  assert (E : out =
    {| final := emit (LambdaCallback answer)
                  (emit (ConsoleLog (Num 200))
                     (store (BUCKET_CACHE env) cacheKey
                        (cached composite contentType)
                        (emit (S3PutObject (BUCKET_CACHE env) cacheKey
                                 composite contentType) w6)));
       result := inr (new_Magicked composite contentType);
       response := Some answer |}).
  { subst out. rewrite (run_to_Resize w e o Hv Hc Ho Hd).
    unfold run. unfold bind at 1. unfold Resize. fold rs. rewrite Hk.
    unfold convert, basename. fold rs fmt tmpResized.
    fold tmpCanvas tmpComposite. fold canvas overlay.
    unfold handle at 1. unfold bind at 1. unfold im_identify_call at 1.
    rewrite H1. cbv beta iota. rewrite Hsize.
    unfold bind at 1. unfold im_resize_call at 1. fold w1. rewrite H2.
    unfold bind at 1. unfold fs_writeFile_call at 1. fold w2. rewrite H3.
    unfold bind at 1. unfold im_convert_call at 1. fold w3. rewrite H4.
    unfold bind at 1. unfold im_convert_call at 1. fold w4. rewrite H5.
    unfold bind at 1. unfold fs_readFile_call at 1. fold w5. rewrite H6.
    unfold ret, CacheStore, handle, upload, s3_putObject. fold cacheKey.
    cbv beta iota. fold w6. rewrite Hp. reflexivity. }
  rewrite E. simpl. repeat split. now rewrite <- !app_assoc.
Qed.


(** The resize step alone: when it fails it has put nothing, and the
    exception says which of the two ways of resizing was taken. *)
Lemma Resize_failure (x : list byte * string) (w : World) (w' : World)
  (ex : Exception) :
  Resize svc env path x w = (w', inl ex) ->
  s3 w' = s3 w
  /\ ex = (if ResizeStyle.isKeepAspect (resizeStyle path)
           then new_ResizeFailedException else new_ConvertFailedException)
  /\ exists evs, trace w' = trace w ++ evs /\ List.filter is_s3_put evs = []
                 /\ List.filter is_callback evs = [].
Proof.
  destruct x as [data contentType]. unfold_handler.
  split_paths; simpl; intros [= <- <-]; simpl; rewrite <- ?app_assoc; simpl;
    (split; [reflexivity|]); (split; [reflexivity|]);
    (eexists; split; [reflexivity|]); split; reflexivity.
Qed.

(** X17. When the resize step of a valid style fails, the run ends with
    ResizeFailed for a keep-aspect style and ConvertFailed otherwise;
    it answers nothing, puts nothing and leaves the stored objects
    unchanged. *)
Theorem transform_failure (w : World) (e : Error) (o : S3Object)
  (ex : Exception) :
  ResizeStyle.isValid (resizeStyle path) = true ->
  cache_get w = inl e ->
  origin_get w = inr o ->
  truthy (Metadata_deleted o) = false ->
  snd (Resize svc env path (Body o, ContentType o) (after_gets w)) = inl ex ->
  let out := handler svc env path w in
  result out = inl ex
  /\ ex = (if ResizeStyle.isKeepAspect (resizeStyle path)
           then new_ResizeFailedException else new_ConvertFailedException)
  /\ response out = None
  /\ s3 (final out) = s3 w
  /\ exists evs, trace (final out) = trace w ++ evs
                 /\ List.filter is_s3_put evs = []
                 /\ List.filter is_callback evs = [].
Proof.
  intros Hv Hc Ho Hd Hr out. subst out.
  rewrite (run_to_Resize w e o Hv Hc Ho Hd). unfold run, bind.
  destruct (Resize svc env path (Body o, ContentType o) (after_gets w))
    as [w' r] eqn:R. simpl in Hr. subst r.
  destruct (Resize_failure _ _ _ _ R) as (S & K & evs & T & P & C).
  rewrite K. clear R K.
  assert (F : forall msg : string,
    exists evs',
      trace (emit (ConsoleLog (Str msg))
               (emit (ConsoleLog (Str "catch exception")) w'))
      = trace w ++ evs'
      /\ List.filter is_s3_put evs' = [] /\ List.filter is_callback evs' = []).
  { intros msg.
    exists ([cacheGetEvent; originGetEvent] ++ evs
            ++ [ConsoleLog (Str "catch exception"); ConsoleLog (Str msg)]).
    simpl. rewrite T. simpl. rewrite <- !app_assoc. simpl.
    split; [reflexivity|]. rewrite !List.filter_app, P, C. split; reflexivity. }
  destruct (ResizeStyle.isKeepAspect (resizeStyle path)); simpl;
    (split; [reflexivity|]); (split; [reflexivity|]);
    (split; [reflexivity|]); (split; [exact S|]); apply F.
Qed.

(** A run that answers without having found the cache object has stored
    what it answers. *)
Lemma answered_is_stored (w : World) (p : Payload) :
  let out := handler svc env path w in
  response out = Some p ->
  (forall q, result out <> inl (ExistCacheException q)) ->
  exists d c,
    p = fill_Payload d c
    /\ s3 (final out) !! (BUCKET_CACHE env, cacheKey) = Some (cached d c).
Proof.
  intros out. subst out. unfold_handler. fold cacheKey.
  split_paths; simpl; intros [= <-] N;
    try (now destruct (N _ eq_refl));
    do 2 eexists; (split; [reflexivity|]); apply lookup_insert_eq.
Qed.

(** X18. After a run that answered without finding the cache object, a
    second run of the same request in the resulting world, whose cache
    get the service lets through, is a cache hit: it answers the same
    payload with the one get and changes nothing. *)
Theorem second_request_hits_cache (w : World) (p : Payload) :
  let out := handler svc env path w in
  response out = Some p ->
  (forall q, result out <> inl (ExistCacheException q)) ->
  s3_get_error svc (trace (final out)) (BUCKET_CACHE env) cacheKey = None ->
  let again := handler svc env path (final out) in
  response again = Some p
  /\ result again = inl (ExistCacheException p)
  /\ trace (final again)
     = trace (final out)
       ++ [cacheGetEvent; ConsoleLog (Str "catch exception");
           ConsoleLog (Num 200); LambdaCallback p]
  /\ s3 (final again) = s3 (final out).
Proof.
  intros out Hr Hn Hg again.
  destruct (answered_is_stored w p Hr Hn) as (d & c & -> & L).
  fold out in L.
  assert (G : cache_get (final out) = inr (cached d c)).
  { unfold cache_get, s3_getObject. now rewrite Hg, L. }
  assert (E : again =
    {| final := emit (LambdaCallback (fill_Payload d c))
                  (emit (ConsoleLog (Num 200))
                     (emit (ConsoleLog (Str "catch exception"))
                        (emit cacheGetEvent (final out))));
       result := inl (ExistCacheException (fill_Payload d c));
       response := Some (fill_Payload d c) |}).
  { subst again. unfold handler, run, waterfall. unfold bind at 1.
    now rewrite (CacheLookup_hit svc env path (final out) _ G). }
  rewrite E. simpl. repeat split. now rewrite <- !app_assoc.
Qed.

(** X20. A run that ends with the UploadFailed exception has attempted
    exactly one put, to the cache bucket under the request's cache key;
    it answers nothing and the stored objects are unchanged, also when
    the image had been resized before. *)
Theorem upload_failure (w : World) :
  let out := handler svc env path w in
  result out = inl new_UploadFailedException ->
  response out = None
  /\ s3 (final out) = s3 w
  /\ exists evs d c,
       trace (final out) = trace w ++ evs
       /\ List.filter is_s3_put evs
          = [S3PutObject (BUCKET_CACHE env) cacheKey d c]
       /\ List.filter is_callback evs = [].
Proof.
  intros out. subst out. unfold_handler. fold cacheKey.
  split_paths; simpl; intros [= ]; rewrite <- ?app_assoc; simpl;
    (split; [reflexivity|]); (split; [reflexivity|]);
    do 3 eexists; (split; [reflexivity|]); split; reflexivity.
Qed.

End PipelineExtras.

(** ** Further properties on concrete requests *)

Section FurtherScenarios.
Import JS Lambda Scenario Faults.
Local Open Scope list_scope.

Lemma keep_aspect_iff_side_missing_witness :
  exists w h,
    index (split "." "fit.0x5.png") 1 = Str (w +:+ "x" +:+ h)
    /\ split "x" (w +:+ "x" +:+ h) = [w; h]
    /\ ResizeStyle.isKeepAspect (ResizeStyle.new (Str "fit.0x5.png"))
       = (String.eqb w "" || String.eqb h "")
    /\ (w <> "" \/ h <> "").
Proof. exact (keep_aspect_iff_side_missing "fit.0x5.png" eq_refl). Defined.

Lemma canvas_fields_digits_witness : all_digits "0200" = true.
Proof.
  exact (canvas_fields_digits (Str "fit.0200x") "0200" (or_introl eq_refl)).
Defined.

Lemma origin_missing_witness :
  let out := handler reliable config "dog/fit.20x" cold in
  result out = inl new_NotFoundException
  /\ response out = None
  /\ trace (final out)
     = trace cold
       ++ [cacheGetEvent config "dog/fit.20x";
           originGetEvent config "dog/fit.20x";
           ConsoleLog (Str "catch exception");
           ConsoleLog (Str "Not Found Exception")]
  /\ s3 (final out) = s3 cold.
Proof.
  exact (origin_missing reliable config "dog/fit.20x" cold
           (MkError "NoSuchKey") (MkError "NoSuchKey") eq_refl eq_refl).
Defined.

Lemma keep_aspect_fresh_result_witness :
  let out := handler reliable config "cat/fit.200x" cold in
  let answer := fill_Payload (Body cat) "image/jpeg" in
  response out = Some answer
  /\ trace (final out)
     = [S3GetObject "cache" "c/cat_fit.200x.jpg.none";
        S3GetObject "orig" "o/cat";
        ImResize (Body cat) (Str "200") (Num 0) (Str "jpg");
        S3PutObject "cache" "c/cat_fit.200x.jpg.none" (Body cat) "image/jpeg";
        ConsoleLog (Num 200); LambdaCallback answer]
  /\ s3 (final out)
     = <[("cache", "c/cat_fit.200x.jpg.none")
         := cached (Body cat) "image/jpeg"]> (s3 cold).
Proof.
  exact (keep_aspect_fresh_result reliable config "cat/fit.200x" cold
           (MkError "NoSuchKey") cat (Body cat)
           eq_refl eq_refl eq_refl eq_refl eq_refl eq_refl eq_refl).
Defined.

Lemma rectangle_fresh_result_witness :
  let out := handler reliable config "cat/fill.200x100.png.000" cold in
  let answer := fill_Payload [x01] "image/png" in
  response out = Some answer
  /\ trace (final out)
     = [S3GetObject "cache" "c/cat_fill.200x100.png.000";
        S3GetObject "orig" "o/cat";
        ImIdentify (Body cat);
        ImResize (Body cat) (Num 0) (Str "100") (Str "png");
        FsWriteFile "/tmp/cat_fill.200x100.png.000" (Body cat);
        ImConvert ["-size"; "200x100"; "xc:#000";
                   "/tmp/cat_fill.200x100.png.000_canvas.png"];
        ImConvert ["/tmp/cat_fill.200x100.png.000_canvas.png";
                   "/tmp/cat_fill.200x100.png.000"; "-gravity"; "center";
                   "-composite";
                   "/tmp/cat_fill.200x100.png.000_composite.png"];
        FsReadFile "/tmp/cat_fill.200x100.png.000_composite.png";
        S3PutObject "cache" "c/cat_fill.200x100.png.000" [x01] "image/png";
        ConsoleLog (Num 200); LambdaCallback answer]
  /\ s3 (final out)
     = <[("cache", "c/cat_fill.200x100.png.000") := cached [x01] "image/png"]>
         (s3 cold).
Proof.
  exact (rectangle_fresh_result reliable config "cat/fill.200x100.png.000"
           cold (MkError "NoSuchKey") cat (Num 800) (Num 400)
           (Num 0) (Str "100") (Body cat) [x01]
           eq_refl eq_refl eq_refl eq_refl eq_refl eq_refl eq_refl eq_refl
           eq_refl eq_refl eq_refl eq_refl eq_refl).
Defined.

Lemma transform_failure_witness :
  let out := handler identify_refused config "cat/fill.200x100" cold in
  result out = inl new_ConvertFailedException
  /\ new_ConvertFailedException
     = (if ResizeStyle.isKeepAspect (resizeStyle "cat/fill.200x100")
        then new_ResizeFailedException else new_ConvertFailedException)
  /\ response out = None
  /\ s3 (final out) = s3 cold
  /\ exists evs, trace (final out) = trace cold ++ evs
                 /\ List.filter is_s3_put evs = []
                 /\ List.filter is_callback evs = [].
Proof.
  exact (transform_failure identify_refused config "cat/fill.200x100" cold
           (MkError "NoSuchKey") cat new_ConvertFailedException
           eq_refl eq_refl eq_refl eq_refl eq_refl).
Defined.

Lemma second_request_hits_cache_witness :
  let out := handler reliable config "cat/fit.200x" cold in
  let again := handler reliable config "cat/fit.200x" (final out) in
  let p := fill_Payload (Body cat) "image/jpeg" in
  response again = Some p
  /\ result again = inl (ExistCacheException p)
  /\ trace (final again)
     = trace (final out)
       ++ [cacheGetEvent config "cat/fit.200x";
           ConsoleLog (Str "catch exception");
           ConsoleLog (Num 200); LambdaCallback p]
  /\ s3 (final again) = s3 (final out).
Proof.
  apply (second_request_hits_cache reliable config "cat/fit.200x" cold
           (fill_Payload (Body cat) "image/jpeg") eq_refl);
    [intros q; discriminate | reflexivity].
Defined.

Lemma upload_failure_witness :
  let out := handler put_refused config "cat/fit.200x" cold in
  response out = None
  /\ s3 (final out) = s3 cold
  /\ exists evs d c,
       trace (final out) = trace cold ++ evs
       /\ List.filter is_s3_put evs
          = [S3PutObject (BUCKET_CACHE config)
               (cacheKey config "cat/fit.200x") d c]
       /\ List.filter is_callback evs = [].
Proof.
  exact (upload_failure put_refused config "cat/fit.200x" cold eq_refl).
Defined.

End FurtherScenarios.
